(** * async_web: a chat relay with an in-band currency-exchange command

    Shallow embedding of [exchange.py], [async_log.py] and [server.py].

    Conventions of the embedding.
    - Python [str] values are modelled by [string], holding the UTF-8
      encoding of the text.  Cutting at a space or a comma, testing a
      prefix and replacing an ASCII character act on the bytes as they
      act on the characters.  [str.isdecimal], [str.upper] and [int]
      are computed on ASCII text; on text with other characters they
      are what the interpreter's Unicode tables say, a field of
      [World].
    - JSON values and the dictionaries built by the parser are values of
      [pyval]; a [dict] is an association list in insertion order whose
      keys are looked up from the left.
    - A Python exception is a value of [exn]; a computation that may
      raise returns a [result].  Coroutines that touch the connection
      set, the audit log, the currency lists or the network run in a
      state-and-exception monad [M] over [State]; the state survives a
      raise, as Python's mutations do.
    - Everything the program reads from outside (the clock, the HTTP
      provider, the order in which awaited requests complete, the
      iteration order of hash sets, the outcome of socket sends and file
      operations, the builtin [str]) is a field of [World]. *)

From Stdlib Require Import ZArith String Ascii List Bool Lia.
From stdpp Require Import gmap strings list pretty.

Open Scope string_scope.
Set Warnings "-register-all".

(** ** Exceptions and results *)

Inductive exn : Type :=
| AttributeError
| KeyError
| TypeError
| OverflowError
| ValueError
| ClientConnectorError (text : string)   (* str(err) = text *)
| ConnectionClosedOK
| OtherException (name : string).

Inductive result (A : Type) : Type :=
| Ok (a : A)
| Raise (e : exn).
Arguments Ok {A} a.
Arguments Raise {A} e.

Definition is_ok {A} (r : result A) : bool :=
  match r with Ok _ => true | Raise _ => false end.

Definition rbind {A B} (r : result A) (k : A -> result B) : result B :=
  match r with
  | Ok a => k a
  | Raise e => Raise e
  end.

(** [rmap f xs]: run [f] on the elements from left to right and stop at
    the first raise (a [for] loop that appends to a list). *)
Fixpoint rmap {A B} (f : A -> result B) (xs : list A) : result (list B) :=
  match xs with
  | [] => Ok []
  | x :: xs' =>
      rbind (f x) (fun y => rbind (rmap f xs') (fun ys => Ok (y :: ys)))
  end.

(** ** Python strings *)

Module PyStr.

Definition is_digit (c : ascii) : bool :=
  let n := nat_of_ascii c in (48 <=? n)%nat && (n <=? 57)%nat.

(** Every character of [s] is an ASCII character. *)
Definition is_ascii (s : string) : bool :=
  forallb (fun c => (nat_of_ascii c <? 128)%nat) (list_ascii_of_string s).

(** [s.isdecimal()] for ASCII text. *)
Definition isdecimal (s : string) : bool :=
  negb (String.eqb s "") && forallb is_digit (list_ascii_of_string s).

(** The value of [int(s)] for ASCII text accepted by [isdecimal]. *)
Definition int_of_decimal (s : string) : Z :=
  fold_left (fun acc c => 10 * acc + (Z.of_nat (nat_of_ascii c) - 48))%Z
            (list_ascii_of_string s) 0%Z.

Definition upper_char (c : ascii) : ascii :=
  let n := nat_of_ascii c in
  if (97 <=? n)%nat && (n <=? 122)%nat then ascii_of_nat (n - 32) else c.

(** [s.upper()] for ASCII text; on any text, the ASCII letters of [s]
    put in upper case and the other characters left as they are. *)
Fixpoint upper (s : string) : string :=
  match s with
  | EmptyString => EmptyString
  | String c s' => String (upper_char c) (upper s')
  end.

(** [s.split(sep)] for a one-character separator: every occurrence
    splits, so empty pieces are kept and the result is never empty. *)
Fixpoint split (sep : ascii) (s : string) : list string :=
  match s with
  | EmptyString => [EmptyString]
  | String c s' =>
      if Ascii.eqb c sep then EmptyString :: split sep s'
      else match split sep s' with
           | [] => [String c EmptyString]
           | w :: ws => String c w :: ws
           end
  end.

(** [sep.join(xs)] *)
Fixpoint join (sep : string) (xs : list string) : string :=
  match xs with
  | [] => ""
  | [x] => x
  | x :: xs' => x ++ sep ++ join sep xs'
  end.

(** [s.startswith(p)] *)
Definition startswith (p s : string) : bool := String.prefix p s.

(** [s.replace(c, by)] for a one-character pattern. *)
Fixpoint replace (c : ascii) (by_ : string) (s : string) : string :=
  match s with
  | EmptyString => EmptyString
  | String a s' =>
      if Ascii.eqb a c then by_ ++ replace c by_ s'
      else String a (replace c by_ s')
  end.

(** Truth value of a string in a condition. *)
Definition truthy (s : string) : bool := negb (String.eqb s "").

End PyStr.

(** ** Python values *)

Inductive pyval : Type :=
| PNone
| PBool (b : bool)
| PInt (n : Z)
| PFloat (bits : Z)          (* IEEE-754 binary64 pattern, never inspected *)
| PStr (s : string)
| PList (xs : list pyval)
| PDict (kvs : list (pyval * pyval)).

Module PyVal.

Definition is_key (k : string) (v : pyval) : bool :=
  match v with
  | PStr s => String.eqb s k
  | _ => false
  end.

(** [d.get(k)] on the entries of a dict, for a string key. *)
Fixpoint lookup (k : string) (kvs : list (pyval * pyval)) : option pyval :=
  match kvs with
  | [] => None
  | (k', v) :: kvs' => if is_key k k' then Some v else lookup k kvs'
  end.

(** [d.get(k, dflt)] *)
Definition get_default (k : string) (dflt : pyval)
    (kvs : list (pyval * pyval)) : pyval :=
  match lookup k kvs with
  | Some v => v
  | None => dflt
  end.

(** [d.update({k: v})] for a string key: an existing key keeps its
    position and takes the new value, a new key goes last. *)
Fixpoint update (k : string) (v : pyval)
    (kvs : list (pyval * pyval)) : list (pyval * pyval) :=
  match kvs with
  | [] => [(PStr k, v)]
  | (k', v') :: kvs' =>
      if is_key k k' then (k', v) :: kvs' else (k', v') :: update k v kvs'
  end.

(** [x[k]] for a string subscript: only a dict accepts it. *)
Definition subscript (x : pyval) (k : string) : result pyval :=
  match x with
  | PDict kvs =>
      match lookup k kvs with
      | Some v => Ok v
      | None => Raise KeyError
      end
  | _ => Raise TypeError
  end.

(** The items a [for] loop over [x] visits. *)
Definition iterate (x : pyval) : result (list pyval) :=
  match x with
  | PList xs => Ok xs
  | PDict kvs => Ok (map fst kvs)
  | PStr s => Ok (map (fun c => PStr (String c EmptyString))
                      (list_ascii_of_string s))
  | _ => Raise TypeError
  end.

(** Values that may be used as a dict key. *)
Definition hashable (x : pyval) : bool :=
  match x with
  | PList _ | PDict _ => false
  | _ => true
  end.

(** [x in xs] for a list of strings [xs]. *)
Definition in_strings (x : pyval) (xs : list string) : bool :=
  match x with
  | PStr s => existsb (String.eqb s) xs
  | _ => false
  end.

End PyVal.

(** ** The outside world *)

(** Connections are identified by the websocket object's identity, list
    objects by their address. *)
Definition conn := nat.
Definition loc := nat.

(** What [session.get(url)] meets. *)
Inductive http_outcome : Type :=
| ConnectFailure (text : string)
    (* aiohttp.ClientConnectorError whose str() is [text] *)
| Failure (e : exn)
    (* any other exception raised while the request is in flight *)
| Response (status : Z) (json : result pyval).
    (* a response; [json] is what [await resp.json()] gives *)

Inductive fs_op : Type := IsFile | Append.

Inductive event : Type :=
| EvGet (url : string)                 (* an HTTP GET was issued *)
| EvSend (c : conn) (text : string)    (* a frame was delivered to [c] *)
| EvInfo (line : string)               (* logging.info *)
| EvAppend (line : string)             (* a line appended to log.log *)
| EvPrint (text : string).             (* print *)

Record World : Type := mkWorld {
  w_today : Z;
    (* date.today().toordinal() *)
  w_strftime : Z -> string;
    (* date.fromordinal(n).strftime(DATE_FORMAT) *)
  w_http : string -> http_outcome;
  w_completion : nat -> list nat;
    (* the order in which the n requests of one gather complete *)
  w_frozenset_order : list string;
    (* iteration order of the frozenset API_CURRENCIES *)
  w_set_order : gset conn -> list conn;
    (* iteration order of the set of clients; for the interpreter it
       lists the members of the set, each once *)
  w_send : conn -> string -> option exn;
    (* the exception raised by client.send(message), if any *)
  w_fs : fs_op -> option exn;
    (* the exception raised by an operation on the log file, if any *)
  w_now : nat -> string;
    (* datetime.now().strftime(date_format) at the k-th log call *)
  w_full_name : nat -> string;
    (* the k-th names.get_full_name() *)
  w_remote_address : conn -> string;
    (* the text of ws.remote_address *)
  w_str : pyval -> string;
    (* the builtin str() *)
  w_isdecimal : string -> bool;
    (* str.isdecimal on text that has a character outside ASCII *)
  w_upper : string -> string;
    (* str.upper on such text *)
  w_int : string -> result Z;
    (* int() on text that is not an ASCII decimal numeral *)
  w_int_max_str_digits : nat
    (* sys.get_int_max_str_digits(): 0 for no limit, 4300 by default *)
}.

(** ** Builtins that depend on the interpreter *)

Module Py.

(** [s.isdecimal()] *)
Definition isdecimal (W : World) (s : string) : bool :=
  if PyStr.is_ascii s then PyStr.isdecimal s else w_isdecimal W s.

(** [s.upper()].  Putting its ASCII letters in upper case first does not
    change what [str.upper] makes of a text, so the tables are asked
    about the text in that form. *)
Definition upper (W : World) (s : string) : string :=
  if PyStr.is_ascii s then PyStr.upper s else w_upper W (PyStr.upper s).

(** A decimal numeral of [digits] digits is refused by [int]: it has
    more than 640 digits and more than the limit, when there is one. *)
Definition over_limit (W : World) (digits : nat) : bool :=
  (640 <? digits)%nat && (0 <? w_int_max_str_digits W)%nat
  && (w_int_max_str_digits W <? digits)%nat.

(** [int(s)]: computed on an ASCII decimal numeral, whose digits are
    all of its characters; on any other text it is what the interpreter
    says. *)
Definition int (W : World) (s : string) : result Z :=
  if PyStr.isdecimal s then
    if over_limit W (String.length s) then Raise ValueError
    else Ok (PyStr.int_of_decimal s)
  else w_int W s.

End Py.

(** ** Program state *)

Inductive logger_obj : Type :=
| LoggerNoFile      (* AsyncLogger whose [file] is None *)
| LoggerFile.       (* AsyncLogger whose [file] is the path log.log *)

Record State : Type := mkState {
  clients : gset conn;                 (* Server.clients *)
  ws_name : gmap conn string;          (* the name attribute of each ws *)
  names_drawn : nat;
  file_logger : option logger_obj;     (* Server.__file_logger *)
  log_file : option (list string);     (* log.log, None while it is missing *)
  log_calls : nat;
  heap : loc -> list string;           (* the list objects *)
  next_loc : loc;
  trace : list event                   (* what was done, oldest first *)
}.

Definition set_clients (f : gset conn -> gset conn) (s : State) : State :=
  mkState (f (clients s)) (ws_name s) (names_drawn s) (file_logger s)
          (log_file s) (log_calls s) (heap s) (next_loc s) (trace s).

Definition set_name (c : conn) (n : string) (s : State) : State :=
  mkState (clients s) (<[c := n]> (ws_name s)) (S (names_drawn s))
          (file_logger s) (log_file s) (log_calls s) (heap s) (next_loc s)
          (trace s).

Definition set_file_logger (l : option logger_obj) (s : State) : State :=
  mkState (clients s) (ws_name s) (names_drawn s) l
          (log_file s) (log_calls s) (heap s) (next_loc s) (trace s).

Definition set_log_file (f : option (list string)) (s : State) : State :=
  mkState (clients s) (ws_name s) (names_drawn s) (file_logger s)
          f (log_calls s) (heap s) (next_loc s) (trace s).

Definition tick_log_calls (s : State) : State :=
  mkState (clients s) (ws_name s) (names_drawn s) (file_logger s)
          (log_file s) (S (log_calls s)) (heap s) (next_loc s) (trace s).

Definition set_heap (l : loc) (v : list string) (s : State) : State :=
  mkState (clients s) (ws_name s) (names_drawn s) (file_logger s)
          (log_file s) (log_calls s)
          (fun l' => if Nat.eqb l' l then v else heap s l') (next_loc s)
          (trace s).

Definition bump_loc (s : State) : State :=
  mkState (clients s) (ws_name s) (names_drawn s) (file_logger s)
          (log_file s) (log_calls s) (heap s) (S (next_loc s)) (trace s).

Definition add_trace (es : list event) (s : State) : State :=
  mkState (clients s) (ws_name s) (names_drawn s) (file_logger s)
          (log_file s) (log_calls s) (heap s) (next_loc s) (trace s ++ es).

(** ** Coroutines: state and exceptions *)

Definition M (A : Type) : Type := State -> result A * State.

Definition ret {A} (a : A) : M A := fun s => (Ok a, s).
Definition raise {A} (e : exn) : M A := fun s => (Raise e, s).
Definition bind {A B} (m : M A) (k : A -> M B) : M B :=
  fun s => match m s with
           | (Ok a, s') => k a s'
           | (Raise e, s') => (Raise e, s')
           end.
Definition lift {A} (r : result A) : M A := fun s => (r, s).
Definition get_state : M State := fun s => (Ok s, s).
Definition modify (f : State -> State) : M unit := fun s => (Ok tt, f s).
Definition emit (es : list event) : M unit := modify (add_trace es).

(** [try: m finally: fin] *)
Definition finally {A} (m : M A) (fin : M unit) : M A :=
  fun s => match m s with
           | (r, s') =>
               match fin s' with
               | (Ok _, s'') => (r, s'')
               | (Raise e, s'') => (Raise e, s'')
               end
           end.

Notation "'await' x ':=' m 'in' k" := (bind m (fun x => k))
  (at level 10, x name, m at level 100, k at level 200).
Notation "'await_' m 'in' k" := (bind m (fun _ => k))
  (at level 10, m at level 100, k at level 200).

(** A [for] loop whose body is a coroutine. *)
Fixpoint for_each {A} (xs : list A) (body : A -> M unit) : M unit :=
  match xs with
  | [] => ret tt
  | x :: xs' => bind (body x) (fun _ => for_each xs' body)
  end.

(** ** exchange.py *)

Module Exchange.

Import PyStr PyVal.

Definition url : string :=
  "https://api.privatbank.ua/p24api/exchange_rates?json&date=".
Definition base_currency : list string := ["EUR"; "USD"].
Definition MAX_DAYS : Z := 10.

(** The tuple handed to [frozenset], as it is written. *)
Definition API_CURRENCIES_tuple : list string :=
  [ "AUD"; "AZN"; "BYN"; "CAD"; "CHF";
    "CNY"; "CZK"; "DKK"; "EUR"; "GBP"; "GEL";
    "HUF"; "ILS"; "JPY"; "KZT"; "MDL"; "NOK";
    "PLN"; "SEK"; "SGD"; "TMT"; "TRY"; "UAH";
    "USD"; "UZS"; "XAU"; "AUD"; "AZN"; "BYN";
    "CAD"; "CHF"; "CNY"; "CZK"; "DKK"; "EUR";
    "GBP"; "GEL"; "HUF"; "ILS"; "JPY"; "KZT";
    "MDL"; "NOK"; "PLN"; "SEK"; "SGD"; "TMT";
    "TRY"; "USD"; "UZS"; "XAU" ].

Definition API_CURRENCIES : gset string := list_to_set API_CURRENCIES_tuple.

(** The two list objects the module creates when it is loaded: the one
    bound to [base_currency] and the one that is the default value of
    the parameter [currency] of [exchange_rates]. *)
Definition base_currency_loc : loc := 0%nat.
Definition default_currency_loc : loc := 1%nat.

(** *** pars_response *)

Definition unavailable : pyval := PStr "unavailable".

(** The dict [{"sale": ..., "purchase": ...}] built from one entry. *)
Definition rate_of (curr : list (pyval * pyval)) : pyval :=
  PDict
    [ (PStr "sale",
       get_default "saleRate" (get_default "saleRateNB" unavailable curr) curr);
      (PStr "purchase",
       get_default "purchaseRate"
         (get_default "purchaseRateNB" unavailable curr) curr) ].

(** One turn of the loop [for curr in rates]. *)
Definition pars_entry (currency : list string)
    (exchange_rate : list (pyval * pyval)) (curr : pyval)
    : result (list (pyval * pyval)) :=
  rbind (subscript curr "currency") (fun code =>
    match code, curr with
    | PStr c, PDict fields =>
        if in_strings code currency
        then Ok (update c (rate_of fields) exchange_rate)
        else Ok exchange_rate
    | _, _ =>
        (* a code that is not a string is in no list of strings *)
        Ok exchange_rate
    end).

Fixpoint pars_entries (currency : list string)
    (exchange_rate : list (pyval * pyval)) (rates : list pyval)
    : result (list (pyval * pyval)) :=
  match rates with
  | [] => Ok exchange_rate
  | curr :: rates' =>
      rbind (pars_entry currency exchange_rate curr)
            (fun er => pars_entries currency er rates')
  end.

Definition pars_response (response : pyval) (currency : list string)
    : result pyval :=
  match response with
  | PDict kvs =>
      match lookup "exchangeRate" kvs with
      | None | Some PNone => Ok (PDict [])
      | Some rates =>
          rbind (iterate rates) (fun items =>
          rbind (pars_entries currency [] items) (fun exchange_rate =>
          rbind (subscript response "date") (fun d =>
          if hashable d then Ok (PDict [(d, PDict exchange_rate)])
          else Raise TypeError)))
      end
  | _ => Raise AttributeError            (* no method [get] *)
  end.

(** *** response_to_html *)

Definition element_to_html (W : World) (el : pyval) : string :=
  replace "}"%char "</li></ul>"
    (replace ","%char "</li><li>"
       (replace "{"%char "<ul><li>"
          (replace "'"%char "" (w_str W el)))).

(** A list is always an [Iterable], so the early return is not taken. *)
Definition response_to_html (W : World) (response : list pyval) : string :=
  fold_left (fun html el => html ++ element_to_html W el) response "".

(** *** get_request and its decorator *)

(** The undecorated body of [get_request]. *)
Definition get_request_body (W : World) (u : string) : result pyval :=
  match w_http W u with
  | ConnectFailure text => Raise (ClientConnectorError text)
  | Failure e => Raise e
  | Response status json =>
      if (status =? 200)%Z then json
      else Ok (PStr ("Error status: " ++ pretty status ++ " for " ++ u))
  end.

Definition connection_errors (func : string -> result pyval)
    (u : string) : result pyval :=
  match func u with
  | Raise (ClientConnectorError text) => Ok (PStr text)
  | r => r
  end.

Definition get_request (W : World) : string -> result pyval :=
  connection_errors (get_request_body W).

(** *** asyncio.gather *)

(** The exception of the first awaitable, in completion order, that
    raised. *)
Fixpoint first_raise {A} (order : list nat) (rs : list (result A))
    : option exn :=
  match order with
  | [] => None
  | i :: order' =>
      match rs !! i with
      | Some (Raise e) => Some e
      | _ => first_raise order' rs
      end
  end.

(** [await asyncio.gather] over the awaitables [rs]: the values in argument order when none
    raised, else the first exception to occur. *)
Definition gather {A} (order : list nat) (rs : list (result A))
    : result (list A) :=
  match first_raise order rs with
  | Some e => Raise e
  | None => rmap (fun r => r) rs
  end.

(** *** exchange_rates *)

(** [range(n)] *)
Definition range (n : Z) : list Z := map Z.of_nat (seq 0 (Z.to_nat n)).

(** [d - timedelta(days=k)] on ordinals; 3652059 is date.max. *)
Definition date_sub (d k : Z) : result Z :=
  let o := (d - k)%Z in
  if (0 <? o)%Z && (o <=? 3652059)%Z then Ok o else Raise OverflowError.

Definition request_url (W : World) (day : Z) : result string :=
  rbind (date_sub (w_today W) day) (fun request_date =>
  Ok (url ++ w_strftime W request_date)).

(** [dst.extend(src)] on list objects. *)
Definition extend (dst src : loc) : M unit :=
  modify (fun s => set_heap dst (heap s dst ++ heap s src) s).

Definition clamp_days (days : Z) : Z :=
  if (days >? MAX_DAYS)%Z then MAX_DAYS else days.

(** [currency = None] stands for a call that omits the argument.
    Opening and closing the client session is taken not to raise. *)
Definition exchange_rates (W : World) (days : Z) (currency : option loc)
    : M (list pyval) :=
  let currency := default default_currency_loc currency in
  await_ extend currency base_currency_loc in
  let days := clamp_days days in
  await urls := lift (rmap (request_url W) (range days)) in
  (* gather starts every request before any of them completes *)
  await_ emit (map EvGet urls) in
  await cources :=
    lift (gather (w_completion W (length urls)) (map (get_request W) urls)) in
  await s := get_state in
  lift (rmap (fun course => pars_response course (heap s currency)) cources).

(** *** arg_parsing *)

Record kwargs : Type := mkKwargs {
  kw_days : option Z;
  kw_currency : option (list string)
}.

Definition newline : string := String (ascii_of_nat 10) EmptyString.

Definition days_message : string :=
  "Invalid days count! It must be numeric value between 1 and 10".

Definition currency_message (W : World) : string :=
  "Invalid currency! Use one of available currencies:" ++ newline
  ++ join ", " (w_frozenset_order W).

(** [API_CURRENCIES.issuperset(xs)] *)
Definition issuperset (xs : list string) : bool :=
  forallb (fun x => bool_decide (x ∈ API_CURRENCIES)) xs.

(** [int] may raise, so the parser may: it then returns nothing. *)
Definition arg_parsing (W : World) (args : list string)
    : result (kwargs * string) :=
  let kwargs0 := mkKwargs None None in
  match args !! 1%nat with
  | Some a1 =>
      if Py.isdecimal W a1 then
        rbind (Py.int W a1) (fun days =>
          let kwargs1 := mkKwargs (Some days) None in
          match args !! 2%nat with
          | Some a2 =>
              let currencies := split ","%char (Py.upper W a2) in
              if issuperset currencies
              then Ok (mkKwargs (kw_days kwargs1) (Some currencies), "")
              else Ok (kwargs1, currency_message W)
          | None => Ok (kwargs1, "")
          end)
      else Ok (kwargs0, days_message)
  | None => Ok (kwargs0, "")
  end.

(** [exchange_rates( **kwargs )]: a missing key leaves the parameter at
    its default; the list made by [split] is a fresh object. *)
Definition alloc (v : list string) : M loc :=
  await s := get_state in
  let l := next_loc s in
  await_ modify (fun s => bump_loc (set_heap l v s)) in
  ret l.

Definition exchange_rates_kwargs (W : World) (kw : kwargs)
    : M (list pyval) :=
  await currency :=
    match kw_currency kw with
    | Some cs => await l := alloc cs in ret (Some l)
    | None => ret None
    end in
  exchange_rates W (default 1%Z (kw_days kw)) currency.

End Exchange.

(** ** async_log.py *)

Module AsyncLog.

(** An operation on the log file: it raises what the world says. *)
Definition fs (W : World) (op : fs_op) : M unit :=
  match w_fs W op with
  | Some e => raise e
  | None => ret tt
  end.

(** [AsyncLogger.set_file] on the logger held by the server.  When the
    file is missing the source calls [path.touch(file)]: the file name
    goes where [touch] expects the mode, which raises TypeError, and no
    file is made. *)
Definition set_file (W : World) : M unit :=
  await_ fs W IsFile in
  await s := get_state in
  await_
    match log_file s with
    | Some _ => ret tt
    | None => raise TypeError
    end in
  modify (set_file_logger (Some LoggerFile)).

(** [AsyncLogger.log] *)
Definition log (W : World) (self : logger_obj) (message : string) : M unit :=
  await s := get_state in
  let log_message :=
    "At " ++ w_now W (log_calls s) ++ ": " ++ message ++ Exchange.newline in
  await_ modify tick_log_calls in
  match self with
  | LoggerNoFile => emit [EvPrint log_message]
  | LoggerFile =>
      await_ fs W Append in
      await_ modify (fun s =>
        set_log_file
          (Some (default [] (log_file s) ++ [log_message])%list) s) in
      emit [EvAppend log_message]
  end.

End AsyncLog.

(** ** server.py *)

Module Server.

Import PyStr.

Definition logger (W : World) : M logger_obj :=
  await s := get_state in
  match file_logger s with
  | Some l => ret l
  | None =>
      await_ modify (set_file_logger (Some LoggerNoFile)) in
      await_ AsyncLog.set_file W in
      ret LoggerFile
  end.

Definition register (W : World) (ws : conn) : M unit :=
  await s := get_state in
  await_ modify (set_name ws (w_full_name W (names_drawn s))) in
  await_ modify (set_clients (fun cs => {[ws]} ∪ cs)) in
  emit [EvInfo (w_remote_address W ws ++ " connects")].

(** [set.remove] raises KeyError on a missing element. *)
Definition unregister (W : World) (ws : conn) : M unit :=
  await s := get_state in
  if bool_decide (ws ∈ clients s) then
    await_ modify (set_clients (fun cs => cs ∖ {[ws]})) in
    emit [EvInfo (w_remote_address W ws ++ " disconnects")]
  else raise KeyError.

(** [await client.send(message)] *)
Definition send (W : World) (message : string) (client : conn) : M unit :=
  match w_send W client message with
  | Some e => raise e
  | None => emit [EvSend client message]
  end.

Definition send_to_clients (W : World) (message : string) : M unit :=
  await s := get_state in
  if bool_decide (clients s = ∅) then ret tt
  else for_each (w_set_order W (clients s)) (send W message).

Definition message_handle (W : World) (message user_name : string)
    : M string :=
  let result := message in
  if startswith "exchange" message then
    await log := logger W in
    await_ AsyncLog.log W log (user_name ++ ": " ++ result) in
    let result := result ++ " result:" in
    await parsed := lift (Exchange.arg_parsing W (split " "%char message)) in
    let '(kwargs, error_message) := parsed in
    if truthy error_message then ret (result ++ error_message)
    else
      await exchange_rates := Exchange.exchange_rates_kwargs W kwargs in
      ret (result ++ Exchange.response_to_html W exchange_rates)
  else ret result.

(** [distrubute] over the frames the peer sends before its stream ends;
    [closing] is the exception that ends the stream, [None] for a
    normal closure, which ends the [async for] silently. *)
Definition distrubute (W : World) (ws : conn) (frames : list string)
    (closing : option exn) : M unit :=
  await_ for_each frames (fun message =>
    await s := get_state in
    match ws_name s !! ws with
    | None => raise AttributeError
    | Some name =>
        await result := message_handle W message name in
        send_to_clients W (name ++ ": " ++ result)
    end) in
  match closing with
  | Some e => raise e
  | None => ret tt
  end.

(** [try: m except ConnectionClosedOK: pass] *)
Definition except_closed_ok (m : M unit) : M unit :=
  fun s => match m s with
           | (Raise ConnectionClosedOK, s') => (Ok tt, s')
           | r => r
           end.

Definition ws_handler (W : World) (ws : conn) (frames : list string)
    (closing : option exn) : M unit :=
  await_ register W ws in
  finally (except_closed_ok (distrubute W ws frames closing))
          (unregister W ws).

End Server.

(** ** The state after the modules are loaded *)

Definition initial_state : State :=
  mkState ∅ ∅ 0 None None 0
    (fun l => if Nat.eqb l Exchange.base_currency_loc
              then Exchange.base_currency else [])
    2 [].

(** ** Observations on a run *)

(** The URLs fetched, oldest first. *)
Definition gets (t : list event) : list string :=
  omap (fun e => match e with EvGet u => Some u | _ => None end) t.

(** The frames delivered, oldest first. *)
Definition sends (t : list event) : list (conn * string) :=
  omap (fun e => match e with EvSend c m => Some (c, m) | _ => None end) t.

(** The list object a call of [exchange_rates] works on, and the state
    once the base currencies have been appended to it. *)
Definition target (currency : option loc) : loc :=
  default Exchange.default_currency_loc currency.

Definition extended (currency : option loc) (s : State) : State :=
  set_heap (target currency)
           (heap s (target currency) ++ heap s Exchange.base_currency_loc) s.

(** The events of delivering [message] to the connections [cs], in that
    order. *)
Definition delivered (message : string) (cs : list conn) : list event :=
  map (fun c => EvSend c message) cs.

(** A day whose request ends in an error marker: the connection could
    not be made, or the status is not 200. *)
Definition error_day (W : World) (u : string) : Prop :=
  (exists text, w_http W u = ConnectFailure text)
  \/ (exists status json, w_http W u = Response status json
                          /\ status <> 200%Z).

(** The audit step of [message_handle]: get the logger, log the line. *)
Definition audit (W : World) (user_name message : string) : M unit :=
  await log := Server.logger W in
  AsyncLog.log W log (user_name ++ ": " ++ message).

(** The line [AsyncLogger.log] writes for [message] in state [s]. *)
Definition log_line (W : World) (s : State) (message : string) : string :=
  "At " ++ w_now W (log_calls s) ++ ": " ++ message ++ Exchange.newline.

(** [c] occurs in [m] as a contiguous piece. *)
Definition occurs (c m : string) : Prop :=
  exists pre post : string, m = pre ++ c ++ post.

(** The world of [W] with another completion order. *)
Definition with_completion (W : World) (order : nat -> list nat) : World :=
  mkWorld (w_today W) (w_strftime W) (w_http W) order
          (w_frozenset_order W) (w_set_order W) (w_send W) (w_fs W)
          (w_now W) (w_full_name W) (w_remote_address W) (w_str W)
          (w_isdecimal W) (w_upper W) (w_int W) (w_int_max_str_digits W).

(** Successive calls [exchange_rates(d)] that omit [currency], one per
    element of [ds]; whatever each call returns or raises is dropped. *)
Fixpoint calls_omitting_currency (W : World) (ds : list Z) (s : State)
    : State :=
  match ds with
  | [] => s
  | d :: ds' =>
      calls_omitting_currency W ds' (snd (Exchange.exchange_rates W d None s))
  end.

(** ** A concrete world for the examples *)

(** The proleptic Gregorian calendar of [datetime], from ordinals. *)
Module Calendar.

Local Open Scope Z_scope.

Definition days_before_month (m : Z) : Z :=
  nth (Z.to_nat m) [0; 0; 31; 59; 90; 120; 151; 181; 212; 243; 273; 304; 334] 0.

Definition days_in_month (m : Z) : Z :=
  nth (Z.to_nat m) [0; 31; 28; 31; 30; 31; 30; 31; 31; 30; 31; 30; 31] 0.

Definition ord2ymd (ordinal : Z) : Z * Z * Z :=
  let n := ordinal - 1 in
  let n400 := n / 146097 in
  let n := n mod 146097 in
  let n100 := n / 36524 in
  let n := n mod 36524 in
  let n4 := n / 1461 in
  let n := n mod 1461 in
  let n1 := n / 365 in
  let n := n mod 365 in
  let year := n400 * 400 + 1 + n100 * 100 + n4 * 4 + n1 in
  if (n1 =? 4) || (n100 =? 4) then (year - 1, 12, 31)
  else
    let leapyear := (n1 =? 3) && (negb (n4 =? 24) || (n100 =? 3)) in
    let month := Z.shiftr (n + 50) 5 in
    let preceding :=
      days_before_month month
      + (if (2 <? month) && leapyear then 1 else 0) in
    if n <? preceding then
      let month := month - 1 in
      let preceding :=
        preceding
        - (days_in_month month
           + (if (month =? 2) && leapyear then 1 else 0)) in
      (year, month, n - preceding + 1)
    else (year, month, n - preceding + 1).

Definition two_digits (n : Z) : string :=
  if n <? 10 then "0" ++ pretty n else pretty n.

(** [strftime("%d.%m.%Y")] for a year of four digits. *)
Definition strftime (ordinal : Z) : string :=
  let '(y, m, d) := ord2ymd ordinal in
  two_digits d ++ "." ++ two_digits m ++ "." ++ pretty y.

End Calendar.

Module Demo.

(** 3 November 2026 *)
Definition today : Z := 739923.

Definition entry (code : string) (fields : list (pyval * pyval)) : pyval :=
  PDict ((PStr "baseCurrency", PStr "UAH") :: (PStr "currency", PStr code)
         :: fields).

(** A provider answer for the date [d]: EUR with both kinds of rate, USD
    with the reference rate only, PLN with no rate, GBP. *)
Definition body (d : string) : pyval :=
  PDict
    [ (PStr "date", PStr d);
      (PStr "bank", PStr "PB");
      (PStr "baseCurrency", PInt 980);
      (PStr "baseCurrencyLit", PStr "UAH");
      (PStr "exchangeRate",
       PList
         [ entry "EUR" [ (PStr "saleRateNB", PInt 48); (PStr "purchaseRateNB", PInt 48);
                         (PStr "saleRate", PInt 49); (PStr "purchaseRate", PInt 47) ];
           entry "USD" [ (PStr "saleRateNB", PInt 41); (PStr "purchaseRateNB", PInt 41) ];
           entry "PLN" [];
           entry "GBP" [ (PStr "saleRate", PInt 56); (PStr "purchaseRate", PInt 54) ] ]) ].

Definition url_of (ordinal : Z) : string :=
  Exchange.url ++ Calendar.strftime ordinal.

(** The provider answers for today; [yesterday] is what the request for
    the day before meets; older dates are unknown to it. *)
Definition http (yesterday : http_outcome) (u : string) : http_outcome :=
  if String.eqb u (url_of today) then
    Response 200 (Ok (body (Calendar.strftime today)))
  else if String.eqb u (url_of (today - 1)) then yesterday
  else Response 404 (Raise (OtherException "ContentTypeError")).

(** [repr] of the values that occur in the examples. *)
Fixpoint str (v : pyval) : string :=
  match v with
  | PNone => "None"
  | PBool true => "True"
  | PBool false => "False"
  | PInt n => pretty n
  | PFloat bits => "float.fromhex(" ++ pretty bits ++ ")"
  | PStr s => "'" ++ s ++ "'"
  | PList xs => "[" ++ PyStr.join ", " (map str xs) ++ "]"
  | PDict kvs =>
      "{" ++ PyStr.join ", "
               (map (fun kv => match kv with
                               | (k, x) => str k ++ ": " ++ str x
                               end) kvs) ++ "}"
  end.

(** The part of the Unicode tables that the examples use: the
    Arabic-Indic digits U+0660 to U+0669 (bytes 217, 160 to 169), which
    are decimal digits, and the long s U+017F (bytes 197, 191) and the
    dotless i U+0131 (bytes 196, 177), whose upper case is S and I. *)
Fixpoint digit_values (s : string) : option (list Z) :=
  match s with
  | EmptyString => Some []
  | String c s' =>
      let n := nat_of_ascii c in
      if PyStr.is_digit c then
        option_map (cons (Z.of_nat n - 48)%Z) (digit_values s')
      else if Nat.eqb n 217 then
        match s' with
        | String d s'' =>
            let m := nat_of_ascii d in
            if (160 <=? m)%nat && (m <=? 169)%nat
            then option_map (cons (Z.of_nat m - 160)%Z) (digit_values s'')
            else None
        | EmptyString => None
        end
      else None
  end.

Definition tables_isdecimal (s : string) : bool :=
  match digit_values s with
  | Some (_ :: _) => true
  | _ => false
  end.

Definition tables_int (s : string) : result Z :=
  match digit_values s with
  | Some ds =>
      if (4300 <? length ds)%nat then Raise ValueError
      else Ok (fold_left (fun acc d => 10 * acc + d)%Z ds 0%Z)
  | None => Raise ValueError
  end.

Fixpoint tables_upper (s : string) : string :=
  match s with
  | EmptyString => EmptyString
  | String c s' =>
      match s' with
      | String d s'' =>
          if Nat.eqb (nat_of_ascii c) 197 && Nat.eqb (nat_of_ascii d) 191
          then String "S" (tables_upper s'')
          else if Nat.eqb (nat_of_ascii c) 196 && Nat.eqb (nat_of_ascii d) 177
          then String "I" (tables_upper s'')
          else String c (tables_upper s')
      | EmptyString => String c EmptyString
      end
  end.

(** The texts "uſd" and "٣", as bytes. *)
Definition u_long_s_d : string :=
  String "u" (String (ascii_of_nat 197) (String (ascii_of_nat 191) "d")).
Definition arabic_three : string :=
  String (ascii_of_nat 217) (String (ascii_of_nat 163) EmptyString).

(** A numeral of [n] digits 9. *)
Definition nines (n : nat) : string :=
  string_of_list_ascii (repeat "9"%char n).

(** Requests complete in the reverse of the order they were made in;
    the peer 2 has gone away, so a send to it fails; the interpreter
    has its default limit on the digits of a numeral. *)
Definition world (yesterday : http_outcome) : World :=
  mkWorld today Calendar.strftime (http yesterday)
    (fun n => rev (seq 0 n))
    (elements Exchange.API_CURRENCIES)
    elements
    (fun c _ => if Nat.eqb c 2 then Some (OtherException "ConnectionClosedError")
                else None)
    (fun _ => None)
    (fun k => "03.11.2026 12:00:0" ++ pretty k ++ ".000000")
    (fun k => "Peer " ++ pretty k)
    (fun c => "('127.0.0.1', " ++ pretty (50000 + Z.of_nat c)%Z ++ ")")
    str
    tables_isdecimal tables_upper tables_int 4300.

Definition good : World :=
  world (Response 200 (Ok (body (Calendar.strftime (today - 1))))).
Definition unavailable_503 : World :=
  world (Response 503 (Raise (OtherException "ContentTypeError"))).
Definition refused : World :=
  world (ConnectFailure "Cannot connect to host api.privatbank.ua:443").

(** Two peers are connected. *)
Definition two_clients : State :=
  set_clients (fun _ => {[1%nat; 2%nat]}) initial_state.

(** The file log.log is there, empty. *)
Definition logged : State := set_log_file (Some []) initial_state.

End Demo.

(** ** Further observations and worlds *)

(** The character [c] occurs in [s]. *)
Fixpoint has_char (c : ascii) (s : string) : bool :=
  match s with
  | EmptyString => false
  | String a s' => Ascii.eqb a c || has_char c s'
  end.

(** An entry of the provider's array that the parser can read: a dict
    that has a "currency" member. *)
Definition readable_entry (e : pyval) : Prop :=
  exists fields code, e = PDict fields
                      /\ PyVal.lookup "currency" fields = Some code.

(** A map of rates for the codes [cur]: its keys are distinct, each is
    one of the codes, and each value is a dict made of a sale and a
    purchase rate. *)
Definition rate_map (cur : list string) (acc : list (pyval * pyval)) : Prop :=
  NoDup (map fst acc)
  /\ forall k x, (k, x) ∈ acc ->
       exists c sale purchase,
         k = PStr c /\ c ∈ cur
         /\ x = PDict [(PStr "sale", sale); (PStr "purchase", purchase)].

(** The rate an entry gives for [kind] ("sale" or "purchase"): the
    bank's own rate, else the national bank's, else "unavailable". *)
Definition preferred_rate (kind : string) (fields : list (pyval * pyval))
    : pyval :=
  match PyVal.lookup (kind ++ "Rate") fields with
  | Some v => v
  | None =>
      match PyVal.lookup (kind ++ "RateNB") fields with
      | Some v => v
      | None => PStr "unavailable"
      end
  end.

(** [s'] has the registry of [s]: the same connections under the same
    names. *)
Definition same_peers (s s' : State) : Prop :=
  clients s' = clients s /\ ws_name s' = ws_name s
  /\ names_drawn s' = names_drawn s.

(** [s'] has the list objects of [s]. *)
Definition same_lists (s s' : State) : Prop :=
  heap s' = heap s /\ next_loc s' = next_loc s.

(** [s'] has the log of [s]. *)
Definition same_log (s s' : State) : Prop :=
  file_logger s' = file_logger s /\ log_file s' = log_file s
  /\ log_calls s' = log_calls s.

(** One turn of the loop of [distrubute]: handle the frame, broadcast
    the reply under the sender's name. *)
Definition relay (W : World) (ws : conn) (message : string) : M unit :=
  await s := get_state in
  match ws_name s !! ws with
  | None => raise AttributeError
  | Some name =>
      await result := Server.message_handle W message name in
      Server.send_to_clients W (name ++ ": " ++ result)
  end.


(** The lines of the log file; none while the file is missing. *)
Definition log_lines (s : State) : list string := default [] (log_file s).

(** The world of [W] with other outcomes for the file operations, and
    with other outcomes for the sends. *)
Definition with_fs (W : World) (fs : fs_op -> option exn) : World :=
  mkWorld (w_today W) (w_strftime W) (w_http W) (w_completion W)
          (w_frozenset_order W) (w_set_order W) (w_send W) fs
          (w_now W) (w_full_name W) (w_remote_address W) (w_str W)
          (w_isdecimal W) (w_upper W) (w_int W) (w_int_max_str_digits W).

Definition with_send (W : World) (send : conn -> string -> option exn)
    : World :=
  mkWorld (w_today W) (w_strftime W) (w_http W) (w_completion W)
          (w_frozenset_order W) (w_set_order W) send (w_fs W)
          (w_now W) (w_full_name W) (w_remote_address W) (w_str W)
          (w_isdecimal W) (w_upper W) (w_int W) (w_int_max_str_digits W).

Module Demo2.

(** The peer 2 has closed its connection in the normal way. *)
Definition peer_closed : World :=
  with_send Demo.good
            (fun c _ => if Nat.eqb c 2 then Some ConnectionClosedOK else None).

(** Every send succeeds. *)
Definition all_sent : World := with_send Demo.good (fun _ _ => None).

(** The request for yesterday times out. *)
Definition timeout : World :=
  Demo.world (Failure (OtherException "TimeoutError")).

End Demo2.

(** * Properties *)

(** ** Results and lists of results *)

Section Results.

Context {A B : Type}.

Lemma rmap_ok_pointwise (f : A -> result B) (g : A -> B) (xs : list A) :
  (forall x, x ∈ xs -> f x = Ok (g x)) -> rmap f xs = Ok (map g xs).
Proof.
  induction xs as [|x xs IH]; intros Hall; [reflexivity|].
  cbn. rewrite (Hall x) by apply list_elem_of_here. cbn.
  rewrite IH; [reflexivity|].
  intros y Hy. apply Hall. by apply list_elem_of_further.
Qed.

Lemma rmap_ok_inv (f : A -> result B) (xs : list A) (ys : list B) (x : A) :
  rmap f xs = Ok ys -> x ∈ xs -> exists y, f x = Ok y /\ y ∈ ys.
Proof.
  revert ys. induction xs as [|a xs IH]; intros ys Hrun Hin.
  - by apply not_elem_of_nil in Hin.
  - cbn in Hrun. destruct (f a) as [b|e] eqn:Hfa; [|discriminate].
    cbn in Hrun. destruct (rmap f xs) as [bs|e] eqn:Hrest; [|discriminate].
    cbn in Hrun. injection Hrun as <-.
    apply elem_of_cons in Hin as [->|Hin].
    + exists b. split; [assumption | apply list_elem_of_here].
    + destruct (IH bs eq_refl Hin) as (y & Hy & Hyin).
      exists y. split; [assumption | by apply list_elem_of_further].
Qed.

Lemma rmap_map {C : Type} (f : A -> result B) (h : C -> A) (xs : list C) :
  rmap f (map h xs) = rmap (fun x => f (h x)) xs.
Proof.
  induction xs as [|x xs IH]; [reflexivity|]. cbn. by rewrite IH.
Qed.

Lemma rmap_length (f : A -> result B) (xs : list A) (ys : list B) :
  rmap f xs = Ok ys -> length ys = length xs.
Proof.
  revert ys. induction xs as [|a xs IH]; intros ys Hrun; cbn in Hrun.
  - by injection Hrun as <-.
  - destruct (f a); [|discriminate]. cbn in Hrun.
    destruct (rmap f xs) as [bs|]; [|discriminate]. cbn in Hrun.
    injection Hrun as <-. cbn. by rewrite (IH bs).
Qed.

End Results.

Lemma rmap_id_no_raise {A} (rs : list (result A)) (vs : list A) i e :
  rmap (fun r => r) rs = Ok vs -> rs !! i <> Some (Raise e).
Proof.
  intros Hrun Hi.
  assert (Hin : Raise e ∈ rs) by (apply list_elem_of_lookup; eauto).
  destruct (rmap_ok_inv _ _ _ _ Hrun Hin) as (y & Hy & _). discriminate.
Qed.

(** When every awaitable gives a value, [gather] gives the values in
    argument order, whatever the completion order is. *)
Lemma gather_all_ok {A} (order : list nat) (rs : list (result A)) vs :
  rmap (fun r => r) rs = Ok vs -> Exchange.gather order rs = Ok vs.
Proof.
  intros Hrun. unfold Exchange.gather.
  assert (Hnone : Exchange.first_raise order rs = None).
  { induction order as [|i order IH]; [reflexivity|]. cbn.
    destruct (rs !! i) as [[v|e]|] eqn:Hi; try assumption.
    by apply (rmap_id_no_raise _ _ _ _ Hrun) in Hi. }
  by rewrite Hnone.
Qed.

Lemma gather_ok_inv {A} (order : list nat) (rs : list (result A)) vs :
  Exchange.gather order rs = Ok vs -> rmap (fun r => r) rs = Ok vs.
Proof.
  unfold Exchange.gather. by destruct (Exchange.first_raise order rs).
Qed.

(** ** The trace *)

Lemma gets_app (t u : list event) :
  gets (t ++ u) = (gets t ++ gets u)%list.
Proof. apply omap_app. Qed.

Lemma gets_map_EvGet (urls : list string) : gets (map EvGet urls) = urls.
Proof.
  induction urls as [|u urls IH]; [reflexivity|].
  cbn. unfold gets in IH. by rewrite IH.
Qed.

(** ** exchange_rates, step by step *)

Section ExchangeRates.

Import Exchange.

Variable W : World.

Lemma exchange_rates_eq (days : Z) (currency : option loc) (s : State) :
  exchange_rates W days currency s =
  match rmap (request_url W) (range (clamp_days days)) with
  | Raise e => (Raise e, extended currency s)
  | Ok urls =>
      (rbind (gather (w_completion W (length urls))
                     (map (get_request W) urls))
             (fun cources =>
                rmap (fun course =>
                        pars_response course
                          (heap s (target currency)
                           ++ heap s base_currency_loc))
                     cources),
       add_trace (map EvGet urls) (extended currency s))
  end.
Proof.
  unfold exchange_rates, extend, emit, modify, lift, get_state, bind.
  fold (target currency). fold (extended currency s).
  destruct (rmap (request_url W) (range (clamp_days days))) as [urls|e];
    [|reflexivity].
  destruct (gather _ _) as [cources|e]; [|reflexivity].
  cbn. by rewrite Nat.eqb_refl.
Qed.

Lemma heap_extended (currency : option loc) (s : State) (l : loc) :
  heap (extended currency s) l =
  if Nat.eqb l (target currency)
  then (heap s (target currency) ++ heap s base_currency_loc)%list
  else heap s l.
Proof. reflexivity. Qed.

(** A call changes exactly one list object, whatever it returns. *)
Lemma exchange_rates_heap (days : Z) (currency : option loc) (s : State) :
  heap (snd (exchange_rates W days currency s)) = heap (extended currency s).
Proof.
  rewrite exchange_rates_eq.
  by destruct (rmap (request_url W) (range (clamp_days days))).
Qed.

Lemma clamp_days_le (days : Z) : (clamp_days days <= 10)%Z.
Proof.
  unfold clamp_days, MAX_DAYS.
  destruct (days >? 10)%Z eqn:Hgt; [lia|].
  pose proof (Zgt_cases days 10) as Hc. rewrite Hgt in Hc. exact Hc.
Qed.

Lemma clamp_days_above (days : Z) : (days > 10)%Z -> clamp_days days = 10%Z.
Proof.
  intros Hgt. unfold clamp_days, MAX_DAYS.
  pose proof (Zgt_cases days 10) as Hc.
  destruct (days >? 10)%Z; [reflexivity | lia].
Qed.

Lemma elem_of_range (n x : Z) : x ∈ range n -> (0 <= x < n)%Z.
Proof.
  unfold range. intros Hin.
  apply list_elem_of_In, in_map_iff in Hin as (k & <- & Hk).
  apply in_seq in Hk. lia.
Qed.

Lemma length_range (n : Z) : length (range n) = Z.to_nat n.
Proof. unfold range. by rewrite length_map, length_seq. Qed.

(** While the clock is at least ten days after the first day of the
    calendar, every date of the window exists and the URLs are built. *)
Lemma request_urls_ok (days : Z) :
  (10 <= w_today W <= 3652059)%Z ->
  rmap (request_url W) (range (clamp_days days)) =
  Ok (map (fun day => url ++ w_strftime W (w_today W - day))
          (range (clamp_days days))).
Proof.
  intros Htoday. apply rmap_ok_pointwise. intros day Hday.
  apply elem_of_range in Hday. pose proof (clamp_days_le days) as Hle.
  unfold request_url, date_sub.
  replace (0 <? w_today W - day)%Z with true
    by (symmetry; apply Z.ltb_lt; lia).
  replace (w_today W - day <=? 3652059)%Z with true
    by (symmetry; apply Z.leb_le; lia).
  reflexivity.
Qed.

Lemma error_day_marker (u : string) :
  error_day W u -> exists marker, get_request W u = Ok (PStr marker).
Proof.
  unfold get_request, connection_errors, get_request_body.
  intros [[text ->] | (status & json & -> & Hne)].
  - by exists text.
  - apply Z.eqb_neq in Hne. rewrite Hne. eauto.
Qed.

(** Whenever some day of the batch ends in an error marker, the call
    raises: it never returns a list. *)
Lemma exchange_rates_error_day_raises (days : Z) (currency : option loc)
    (s : State) (urls : list string) (u : string) :
  rmap (request_url W) (range (clamp_days days)) = Ok urls ->
  u ∈ urls ->
  error_day W u ->
  is_ok (fst (exchange_rates W days currency s)) = false.
Proof.
  intros Hurls Hu Herr. rewrite exchange_rates_eq, Hurls. cbn [fst].
  destruct (gather _ _) as [cources|e] eqn:Hgather; [|reflexivity].
  cbn. apply gather_ok_inv in Hgather. rewrite rmap_map in Hgather.
  destruct (rmap_ok_inv _ _ _ _ Hgather Hu) as (course & Hcourse & Hin).
  destruct (error_day_marker u Herr) as [marker Hmarker].
  rewrite Hmarker in Hcourse. injection Hcourse as <-.
  destruct (rmap _ cources) as [rs|e] eqn:Hpars; [|reflexivity].
  destruct (rmap_ok_inv _ _ _ _ Hpars Hin) as (r & Hr & _).
  discriminate.
Qed.

End ExchangeRates.

(** ** The builtins on ASCII text *)

Section Builtins.

Variable W : World.

Lemma isdecimal_is_ascii (s : string) :
  PyStr.isdecimal s = true -> PyStr.is_ascii s = true.
Proof.
  unfold PyStr.isdecimal, PyStr.is_ascii.
  intros [_ Hdigits]%andb_true_iff.
  rewrite forallb_forall in *. intros c Hc.
  specialize (Hdigits c Hc). unfold PyStr.is_digit in Hdigits.
  apply andb_true_iff in Hdigits as [_ Hhi].
  apply Nat.leb_le in Hhi. apply Nat.ltb_lt. lia.
Qed.


Lemma isdecimal_ascii (s : string) :
  PyStr.is_ascii s = true -> Py.isdecimal W s = PyStr.isdecimal s.
Proof. unfold Py.isdecimal. by intros ->. Qed.

Lemma isdecimal_numeral (s : string) :
  PyStr.isdecimal s = true -> Py.isdecimal W s = true.
Proof.
  intros Hdec. by rewrite (isdecimal_ascii s (isdecimal_is_ascii s Hdec)).
Qed.

Lemma upper_ascii (s : string) :
  PyStr.is_ascii s = true -> Py.upper W s = PyStr.upper s.
Proof. unfold Py.upper. by intros ->. Qed.

(** [int] takes every numeral of at most 640 digits, and every numeral
    when there is no limit or the limit is not exceeded. *)
Lemma over_limit_false (digits : nat) :
  (digits <= 640 \/ w_int_max_str_digits W = 0
   \/ digits <= w_int_max_str_digits W)%nat ->
  Py.over_limit W digits = false.
Proof.
  unfold Py.over_limit. intros Hbound.
  destruct (Nat.ltb_spec 640 digits); [|reflexivity].
  destruct (Nat.ltb_spec 0 (w_int_max_str_digits W)); [|reflexivity].
  destruct (Nat.ltb_spec (w_int_max_str_digits W) digits); [lia|reflexivity].
Qed.

Lemma int_numeral (s : string) :
  PyStr.isdecimal s = true ->
  Py.int W s =
  if Py.over_limit W (String.length s) then Raise ValueError
  else Ok (PyStr.int_of_decimal s).
Proof. unfold Py.int. by intros ->. Qed.

(** A command of two tokens whose second is a numeral that [int]
    converts gives that day count and no message. *)
Lemma arg_parsing_days (cmd tok : string) (d : Z) :
  Py.isdecimal W tok = true ->
  Py.int W tok = Ok d ->
  Exchange.arg_parsing W [cmd; tok] = Ok (Exchange.mkKwargs (Some d) None, "").
Proof.
  intros Hdec Hint. unfold Exchange.arg_parsing. cbn [lookup list_lookup].
  by rewrite Hdec, Hint.
Qed.

End Builtins.

(** ** Day count *)

(** C5, at the input that refutes it as stated: under the default limit
    of the interpreter, the day-count token made of 4301 digits 9 is a
    decimal literal above 10, and the parser raises ValueError on it. *)
Lemma parse_rejects_long_day_count_cex :
  Py.isdecimal Demo.good (Demo.nines 4301) = true
  /\ (10 <? PyStr.int_of_decimal (Demo.nines 4301))%Z = true
  /\ Exchange.arg_parsing Demo.good ["exchange"; Demo.nines 4301] =
     Raise ValueError.
Proof. by vm_compute. Qed.

(** C5, as amended. A day count above 10 is clamped when the rates are
    fetched: the call with [d > 10] is the call with 10, in its result,
    in the requests it makes and in the state it leaves.  The parser
    never turns a day count down for its value: a decimal token that
    [int] converts is handed on as it is.  [int] converts every ASCII
    numeral of at most 640 digits, and every one when the interpreter
    has no limit on the digits or the numeral does not exceed it; on a
    longer numeral the parser raises ValueError. *)
Theorem days_above_max_clamped (W : World) (d : Z) :
  (d > 10)%Z ->
  (forall currency s,
     Exchange.exchange_rates W d currency s =
     Exchange.exchange_rates W 10 currency s)
  /\ (forall cmd tok,
        Py.isdecimal W tok = true ->
        Py.int W tok = Ok d ->
        Exchange.arg_parsing W [cmd; tok] =
        Ok (Exchange.mkKwargs (Some d) None, ""))
  /\ (forall cmd tok,
        PyStr.isdecimal tok = true ->
        PyStr.int_of_decimal tok = d ->
        (String.length tok <= 640 \/ w_int_max_str_digits W = 0
         \/ String.length tok <= w_int_max_str_digits W)%nat ->
        Exchange.arg_parsing W [cmd; tok] =
        Ok (Exchange.mkKwargs (Some d) None, ""))
  /\ (forall cmd tok,
        PyStr.isdecimal tok = true ->
        Py.over_limit W (String.length tok) = true ->
        Exchange.arg_parsing W [cmd; tok] = Raise ValueError).
Proof.
  intros Hd. split; [|split; [|split]].
  - intros currency s. rewrite !exchange_rates_eq.
    rewrite (clamp_days_above d Hd).
    change (Exchange.clamp_days 10) with 10%Z. reflexivity.
  - intros cmd tok Hdec Hint. by apply arg_parsing_days.
  - intros cmd tok Hdec Hint Hbound. apply arg_parsing_days.
    + by apply isdecimal_numeral.
    + by rewrite int_numeral, over_limit_false, Hint.
  - intros cmd tok Hdec Hover.
    unfold Exchange.arg_parsing. cbn [lookup list_lookup].
    by rewrite isdecimal_numeral, int_numeral, Hover.
Qed.

Lemma days_above_max_clamped_witness :
  (11 > 10)%Z
  /\ Exchange.exchange_rates Demo.good 11 None initial_state =
     Exchange.exchange_rates Demo.good 10 None initial_state
  /\ Py.isdecimal Demo.good "11" = true
  /\ Exchange.arg_parsing Demo.good ["exchange"; "11"] =
     Ok (Exchange.mkKwargs (Some 11%Z) None, "")
  /\ Py.over_limit Demo.good 4301 = true.
Proof.
  pose proof (days_above_max_clamped Demo.good 11 eq_refl)
    as (Hfetch & _ & Hparse & _).
  split; [reflexivity|]. split; [apply Hfetch|].
  split; [reflexivity|]. split; [|reflexivity].
  apply Hparse; try reflexivity. left. cbn. lia.
Defined.

(** C10. The parser accepts the day-count token "0", and a call with
    [days = 0] makes no request and returns the empty list. *)
Theorem zero_days_accepted (W : World) :
  PyStr.isdecimal "0" = true
  /\ Py.isdecimal W "0" = true
  /\ (forall cmd,
        Exchange.arg_parsing W [cmd; "0"] =
        Ok (Exchange.mkKwargs (Some 0%Z) None, ""))
  /\ (forall currency s,
        fst (Exchange.exchange_rates W 0 currency s) = Ok []
        /\ trace (snd (Exchange.exchange_rates W 0 currency s)) = trace s).
Proof.
  split; [reflexivity|]. split; [reflexivity|]. split; [reflexivity|].
  intros currency s. rewrite exchange_rates_eq.
  change (Exchange.range (Exchange.clamp_days 0)) with (@nil Z).
  cbn [rmap map length fst snd].
  rewrite (gather_all_ok _ [] [] eq_refl).
  split; [reflexivity | apply app_nil_r].
Qed.

(** ** The currency list is changed in place *)

Lemma calls_omitting_currency_heap (W : World) (ds : list Z) (s : State) :
  heap (calls_omitting_currency W ds s) Exchange.default_currency_loc =
  (heap s Exchange.default_currency_loc
   ++ concat (replicate (length ds) (heap s Exchange.base_currency_loc)))%list
  /\ heap (calls_omitting_currency W ds s) Exchange.base_currency_loc =
     heap s Exchange.base_currency_loc.
Proof.
  revert s. induction ds as [|d ds IH]; intros s.
  - cbn. by rewrite app_nil_r.
  - cbn [calls_omitting_currency length].
    destruct (IH (snd (Exchange.exchange_rates W d None s))) as [IHd IHb].
    rewrite IHd, IHb, exchange_rates_heap, !heap_extended. cbn.
    by rewrite <- app_assoc.
Qed.

(** C9. [exchange_rates] appends the base currencies to the list object
    it is given, and to nothing else: a list supplied by the caller is
    longer after the call, whether the call returns or raises; a call
    that omits the argument appends to the one default list, so after
    n such calls that list holds the base currencies n times. *)
Theorem exchange_rates_extends_in_place (W : World) :
  (forall days l s,
     heap (snd (Exchange.exchange_rates W days (Some l) s)) l =
     (heap s l ++ heap s Exchange.base_currency_loc)%list)
  /\ (forall days s,
        heap (snd (Exchange.exchange_rates W days None s))
             Exchange.default_currency_loc =
        (heap s Exchange.default_currency_loc
         ++ heap s Exchange.base_currency_loc)%list)
  /\ (forall days currency s l,
        l <> target currency ->
        heap (snd (Exchange.exchange_rates W days currency s)) l = heap s l)
  /\ (forall ds,
        heap (calls_omitting_currency W ds initial_state)
             Exchange.default_currency_loc =
        concat (replicate (length ds) Exchange.base_currency)).
Proof.
  split; [|split; [|split]].
  - intros days l s. rewrite exchange_rates_heap, heap_extended. cbn.
    by rewrite Nat.eqb_refl.
  - intros days s. by rewrite exchange_rates_heap, heap_extended.
  - intros days currency s l Hl. rewrite exchange_rates_heap, heap_extended.
    apply Nat.eqb_neq in Hl. by rewrite Hl.
  - intros ds.
    by destruct (calls_omitting_currency_heap W ds initial_state) as [-> _].
Qed.

Lemma exchange_rates_extends_in_place_witness :
  heap (snd (Exchange.exchange_rates Demo.good 1 (Some 5%nat)
               (set_heap 5%nat ["PLN"] initial_state))) 5%nat =
  ["PLN"; "EUR"; "USD"]
  /\ heap (calls_omitting_currency Demo.good [1%Z; 1%Z; 1%Z] initial_state)
          Exchange.default_currency_loc =
     ["EUR"; "USD"; "EUR"; "USD"; "EUR"; "USD"]
  /\ heap (snd (Exchange.exchange_rates Demo.good 1 None initial_state))
          Exchange.base_currency_loc = ["EUR"; "USD"].
Proof.
  destruct (exchange_rates_extends_in_place Demo.good)
    as (Hgiven & _ & Hother & Hmany).
  split; [|split].
  - by rewrite Hgiven.
  - by rewrite (Hmany [1%Z; 1%Z; 1%Z]).
  - by rewrite (Hother 1%Z None initial_state Exchange.base_currency_loc).
Defined.

(** ** The batch of requests *)

Lemma rmap_ok_lookup {A B} (f : A -> result B) (xs : list A) (ys : list B)
    (k : nat) (x : A) :
  rmap f xs = Ok ys -> xs !! k = Some x ->
  exists y, f x = Ok y /\ ys !! k = Some y.
Proof.
  revert ys k. induction xs as [|a xs IH]; intros ys k Hrun Hk;
    [discriminate|].
  cbn in Hrun. destruct (f a) as [b|e] eqn:Hfa; [|discriminate].
  cbn in Hrun. destruct (rmap f xs) as [bs|e] eqn:Hrest; [|discriminate].
  cbn in Hrun. injection Hrun as <-.
  destruct k as [|k]; cbn in Hk.
  - injection Hk as <-. by exists b.
  - destruct (IH bs k eq_refl Hk) as (y & Hy & Hyk). by exists y.
Qed.

(** C8. With [d] the clamped day count, a call issues one GET per offset
    0..d-1, to the endpoint followed by the date of today minus the
    offset, most recent first, all of them before any answer is looked
    at; and whatever the order in which the answers arrive, the list
    returned holds at position k the parsed answer to the request of
    offset k. *)
Theorem exchange_rates_requests_by_offset (W : World) (days : Z)
    (currency : option loc) (s : State) (order : nat -> list nat) :
  (10 <= w_today W <= 3652059)%Z ->
  let d := Exchange.clamp_days days in
  let urls :=
    map (fun day => Exchange.url ++ w_strftime W (w_today W - day))
        (Exchange.range d) in
  let cur :=
    (heap s (target currency) ++ heap s Exchange.base_currency_loc)%list in
  let r := Exchange.exchange_rates (with_completion W order) days currency s in
  gets (trace (snd r)) = (gets (trace s) ++ urls)%list
  /\ length urls = Z.to_nat d
  /\ (forall cources,
        rmap (Exchange.get_request W) urls = Ok cources ->
        fst r =
        rmap (fun course => Exchange.pars_response course cur) cources)
  /\ (forall results,
        fst r = Ok results ->
        length results = Z.to_nat d
        /\ forall k u,
             urls !! k = Some u ->
             exists course result,
               Exchange.get_request W u = Ok course
               /\ Exchange.pars_response course cur = Ok result
               /\ results !! k = Some result).
Proof.
  intros Htoday d urls cur r.
  assert (Hr : r =
    (rbind (Exchange.gather (order (length urls))
                            (map (Exchange.get_request W) urls))
           (fun cources =>
              rmap (fun course => Exchange.pars_response course cur)
                   cources),
     add_trace (map EvGet urls) (extended currency s))).
  { subst r. rewrite exchange_rates_eq.
    change (Exchange.request_url (with_completion W order))
      with (Exchange.request_url W).
    by rewrite (request_urls_ok W days Htoday). }
  assert (Hlen : length urls = Z.to_nat d).
  { subst urls. by rewrite length_map, length_range. }
  rewrite Hr. cbn [fst snd]. split; [|split; [exact Hlen|split]].
  - cbn. by rewrite gets_app, gets_map_EvGet.
  - intros cources Hcources.
    rewrite (gather_all_ok _ _ cources); [reflexivity|].
    by rewrite rmap_map.
  - intros results Hres.
    destruct (Exchange.gather _ _) as [cources|e] eqn:Hgather;
      [|discriminate].
    cbn in Hres. apply gather_ok_inv in Hgather.
    rewrite rmap_map in Hgather. split.
    + by rewrite (rmap_length _ _ _ Hres), (rmap_length _ _ _ Hgather).
    + intros k u Hk.
      destruct (rmap_ok_lookup _ _ _ _ _ Hgather Hk)
        as (course & Hcourse & Hck).
      destruct (rmap_ok_lookup _ _ _ _ _ Hres Hck)
        as (result & Hresult & Hrk).
      by exists course, result.
Qed.

Lemma exchange_rates_requests_by_offset_witness :
  (10 <= w_today Demo.good <= 3652059)%Z
  /\ gets (trace (snd (Exchange.exchange_rates
                         (with_completion Demo.good (fun n => seq 0 n))
                         2 None initial_state))) =
     [ Demo.url_of Demo.today; Demo.url_of (Demo.today - 1) ]
  /\ is_ok (fst (Exchange.exchange_rates
                   (with_completion Demo.good (fun n => seq 0 n))
                   2 None initial_state)) = true.
Proof.
  pose proof (exchange_rates_requests_by_offset Demo.good 2 None
                initial_state (fun n => seq 0 n)
                ltac:(by vm_compute)) as (Hgets & _ & Hall & _).
  split; [by vm_compute|]. split.
  - rewrite Hgets. reflexivity.
  - rewrite (Hall _ eq_refl). reflexivity.
Defined.

(** ** A failed day *)

(** C1. Two days are asked for; the answer for today is good, the
    request for yesterday ends in an error marker, once for a status
    503 and once for a connection that could not be made.  The marker
    is built, and the good day alone parses, but the marker is handed
    to [pars_response] as if it were a dict and the whole call raises
    AttributeError: no list is returned. *)
Theorem exchange_rates_failed_day_raises :
  let yesterday := Demo.url_of (Demo.today - 1) in
  let base := ["EUR"; "USD"] in
  Exchange.get_request Demo.unavailable_503 yesterday =
    Ok (PStr ("Error status: 503 for " ++ yesterday))
  /\ Exchange.get_request Demo.refused yesterday =
       Ok (PStr "Cannot connect to host api.privatbank.ua:443")
  /\ is_ok (rbind (Exchange.get_request Demo.unavailable_503
                     (Demo.url_of Demo.today))
                  (fun course => Exchange.pars_response course base)) = true
  /\ fst (Exchange.exchange_rates Demo.unavailable_503 2 None initial_state)
     = Raise AttributeError
  /\ fst (Exchange.exchange_rates Demo.refused 2 None initial_state)
     = Raise AttributeError.
Proof. by vm_compute. Qed.

(** ** Answers without rates *)

(** C7. For a JSON object answered with status 200: when it has no
    "exchangeRate" member (or the member is null) the parser returns
    the empty map; when the member is the empty array the parser
    returns, under the answer's own "date", a map with no currency in
    it.  Neither case raises. *)
Theorem pars_response_without_rates (kvs : list (pyval * pyval))
    (currency : list string) :
  (PyVal.lookup "exchangeRate" kvs = None
   \/ PyVal.lookup "exchangeRate" kvs = Some PNone ->
   Exchange.pars_response (PDict kvs) currency = Ok (PDict []))
  /\ (forall d,
        PyVal.lookup "exchangeRate" kvs = Some (PList []) ->
        PyVal.lookup "date" kvs = Some d ->
        PyVal.hashable d = true ->
        Exchange.pars_response (PDict kvs) currency =
        Ok (PDict [(d, PDict [])])).
Proof.
  unfold Exchange.pars_response. split.
  - by intros [-> | ->].
  - intros d -> Hdate Hhash. cbn -[PyVal.hashable PyVal.lookup].
    rewrite Hdate. cbn -[PyVal.hashable]. by rewrite Hhash.
Qed.

Lemma pars_response_without_rates_witness :
  Exchange.pars_response
    (PDict [(PStr "date", PStr "03.11.2026"); (PStr "bank", PStr "PB")])
    ["EUR"; "USD"] = Ok (PDict [])
  /\ Exchange.pars_response
       (PDict [(PStr "date", PStr "03.11.2026");
               (PStr "exchangeRate", PList [])])
       ["EUR"; "USD"] = Ok (PDict [(PStr "03.11.2026", PDict [])]).
Proof.
  split.
  - apply (proj1 (pars_response_without_rates _ _)). by left.
  - by apply (proj2 (pars_response_without_rates _ _)).
Defined.

(** ** The audit step *)

Section Audit.

Variable W : World.

(** The audit step fetches nothing and leaves the list objects alone. *)
Lemma audit_frame (user_name message : string) (s : State) :
  gets (trace (snd (audit W user_name message s))) = gets (trace s)
  /\ heap (snd (audit W user_name message s)) = heap s
  /\ clients (snd (audit W user_name message s)) = clients s.
Proof.
  unfold audit, Server.logger, AsyncLog.set_file, AsyncLog.log, AsyncLog.fs,
    emit, modify, raise, ret, get_state, bind.
  destruct (file_logger s) as [[|]|]; cbn.
  - by rewrite gets_app, app_nil_r.
  - destruct (w_fs W Append); cbn; [done|].
    by rewrite gets_app, app_nil_r.
  - destruct (w_fs W IsFile); cbn; [done|].
    destruct (log_file s); cbn; [|done].
    destruct (w_fs W Append); cbn; [done|].
    by rewrite gets_app, app_nil_r.
Qed.


(** When the parser raises, [message_handle] is the audit step followed
    by the same exception: nothing else is run. *)
Lemma message_handle_parse_raise (message user_name : string) (s : State)
    (e : exn) :
  PyStr.startswith "exchange" message = true ->
  Exchange.arg_parsing W (PyStr.split " " message) = Raise e ->
  Server.message_handle W message user_name s =
  (await_ audit W user_name message in raise e) s.
Proof.
  intros Hstart Hparse.
  unfold Server.message_handle, audit, bind, lift, raise.
  rewrite Hstart, Hparse.
  destruct (Server.logger W s) as [[lg|e'] s1]; [|reflexivity].
  by destruct (AsyncLog.log W lg _ s1) as [[[]|e'] s2].
Qed.

(** When the parser gives an error message, [message_handle] is the
    audit step followed by the reply: nothing else is run. *)
Lemma message_handle_parse_error (message user_name : string) (s : State)
    (kw : Exchange.kwargs) (error_message : string) :
  PyStr.startswith "exchange" message = true ->
  Exchange.arg_parsing W (PyStr.split " " message) =
    Ok (kw, error_message) ->
  PyStr.truthy error_message = true ->
  Server.message_handle W message user_name s =
  (await_ audit W user_name message in
   ret ((message ++ " result:") ++ error_message)) s.
Proof.
  intros Hstart Hparse Herr.
  unfold Server.message_handle, audit, bind, lift.
  rewrite Hstart, Hparse.
  destruct (Server.logger W s) as [[lg|e] s1]; [|reflexivity].
  destruct (AsyncLog.log W lg _ s1) as [[[]|e] s2]; [|reflexivity].
  by rewrite Herr.
Qed.

(** So a rejected command fetches nothing and touches no list. *)
Lemma message_handle_parse_error_frame (message user_name : string)
    (s : State) (kw : Exchange.kwargs) (error_message : string) :
  PyStr.startswith "exchange" message = true ->
  Exchange.arg_parsing W (PyStr.split " " message) =
    Ok (kw, error_message) ->
  PyStr.truthy error_message = true ->
  gets (trace (snd (Server.message_handle W message user_name s))) =
    gets (trace s)
  /\ heap (snd (Server.message_handle W message user_name s)) = heap s.
Proof.
  intros Hstart Hparse Herr.
  rewrite (message_handle_parse_error _ _ _ _ _ Hstart Hparse Herr).
  destruct (audit_frame user_name message s) as (Hgets & Hheap & _).
  unfold bind.
  by destruct (audit W user_name message s) as [[[]|e] s1].
Qed.

(** The same when the parser raises, and so for every command that the
    parser does not accept. *)
Lemma message_handle_rejected_frame (message user_name : string)
    (s : State) :
  PyStr.startswith "exchange" message = true ->
  (forall kw error_message,
     Exchange.arg_parsing W (PyStr.split " " message) =
       Ok (kw, error_message) ->
     PyStr.truthy error_message = true) ->
  gets (trace (snd (Server.message_handle W message user_name s))) =
    gets (trace s)
  /\ heap (snd (Server.message_handle W message user_name s)) = heap s.
Proof.
  intros Hstart Hrejected.
  destruct (Exchange.arg_parsing W (PyStr.split " " message))
    as [[kw error_message]|e] eqn:Hparse.
  - by apply (message_handle_parse_error_frame _ _ _ kw error_message);
      [| |apply (Hrejected kw)].
  - rewrite (message_handle_parse_raise _ _ _ _ Hstart Hparse).
    destruct (audit_frame user_name message s) as (Hgets & Hheap & _).
    unfold bind, raise.
    by destruct (audit W user_name message s) as [[[]|e'] s1].
Qed.

End Audit.

(** ** Text *)

Lemma string_app_assoc (a b c : string) : (a ++ b) ++ c = a ++ b ++ c.
Proof.
  induction a as [|x a IH]; [reflexivity|].
  change (String x ((a ++ b) ++ c) = String x (a ++ b ++ c)).
  by rewrite IH.
Qed.

Lemma string_app_nil_r (a : string) : a ++ "" = a.
Proof.
  induction a as [|x a IH]; [reflexivity|].
  change (String x (a ++ "") = String x a). by rewrite IH.
Qed.

Lemma occurs_self (c : string) : occurs c c.
Proof. exists "", "". by rewrite string_app_nil_r. Qed.

Lemma occurs_app_l (c m x : string) : occurs c m -> occurs c (m ++ x).
Proof.
  intros (pre & post & ->). exists pre, (post ++ x).
  by rewrite !string_app_assoc.
Qed.

Lemma occurs_app_r (c m x : string) : occurs c m -> occurs c (x ++ m).
Proof.
  intros (pre & post & ->). exists (x ++ pre), post.
  by rewrite !string_app_assoc.
Qed.

(** Every piece joined occurs in the joined text. *)
Lemma occurs_join (sep x : string) (xs : list string) :
  x ∈ xs -> occurs x (PyStr.join sep xs).
Proof.
  induction xs as [|y xs IH]; intros Hin.
  - by apply not_elem_of_nil in Hin.
  - apply elem_of_cons in Hin as [->|Hin].
    + destruct xs as [|z xs]; cbn; [apply occurs_self|].
      apply occurs_app_l, occurs_self.
    + destruct xs as [|z xs]; [by apply not_elem_of_nil in Hin|].
      change (PyStr.join sep (y :: z :: xs))
        with (y ++ sep ++ PyStr.join sep (z :: xs)).
      by apply occurs_app_r, occurs_app_r, IH.
Qed.

Lemma issuperset_elem (xs : list string) (x : string) :
  Exchange.issuperset xs = true -> x ∈ xs -> x ∈ Exchange.API_CURRENCIES.
Proof.
  unfold Exchange.issuperset. intros Hall Hin.
  rewrite forallb_forall in Hall.
  apply list_elem_of_In, Hall in Hin. by apply bool_decide_eq_true in Hin.
Qed.

(** ** Commands that the parser rejects *)

(** C4, at the input that refutes it as stated: the currency list holds
    a code outside the allow-list, but the day count is not a number, so
    the message is the one about the day count; it is not the message
    that lists the allow-list. *)
Lemma arg_parsing_invalid_currency_cex :
  let args := ["exchange"; "abc"; "ZZZ"] in
  "ZZZ" ∈ PyStr.split "," (Py.upper Demo.good "ZZZ")
  /\ ("ZZZ" ∉ Exchange.API_CURRENCIES)
  /\ Exchange.arg_parsing Demo.good args =
     Ok (Exchange.mkKwargs None None, Exchange.days_message)
  /\ (Exchange.days_message <> Exchange.currency_message Demo.good).
Proof.
  cbv zeta. split; [by apply list_elem_of_here|].
  split; [by vm_compute|]. split; [reflexivity|].
  by vm_compute.
Qed.

(** With a third token that has a code outside the allow-list, the
    parser goes by the second token alone. *)
Lemma arg_parsing_third_token_refused (W : World) (a0 a1 a2 : string)
    (rest : list string) :
  Exchange.issuperset (PyStr.split "," (Py.upper W a2)) = false ->
  Exchange.arg_parsing W (a0 :: a1 :: a2 :: rest) =
  if Py.isdecimal W a1
  then rbind (Py.int W a1) (fun d =>
         Ok (Exchange.mkKwargs (Some d) None, Exchange.currency_message W))
  else Ok (Exchange.mkKwargs None None, Exchange.days_message).
Proof.
  intros Hsuper. unfold Exchange.arg_parsing. cbn [lookup list_lookup].
  destruct (Py.isdecimal W a1); [|reflexivity].
  destruct (Py.int W a1); [|reflexivity]. cbn. by rewrite Hsuper.
Qed.

(** C4, as amended. When the currency list holds a code outside the
    allow-list (the codes being those the interpreter's [upper] gives),
    parsing fails: the parser raises, or it returns a message that is
    not empty and no currency list.  When the day-count token is a
    decimal literal that [int] converts, the message is the one that
    lists the whole allow-list, in the order the frozenset is iterated
    in; when it is not a decimal literal, the message is the one about
    the day count.  The command makes no request and changes no
    list. *)
Theorem invalid_currency_rejected (W : World) (args : list string)
    (a2 c : string) :
  args !! 2%nat = Some a2 ->
  c ∈ PyStr.split "," (Py.upper W a2) ->
  c ∉ Exchange.API_CURRENCIES ->
  (forall kw error_message,
     Exchange.arg_parsing W args = Ok (kw, error_message) ->
     PyStr.truthy error_message = true /\ Exchange.kw_currency kw = None)
  /\ (forall a1 d,
        args !! 1%nat = Some a1 ->
        Py.isdecimal W a1 = true ->
        Py.int W a1 = Ok d ->
        Exchange.arg_parsing W args =
        Ok (Exchange.mkKwargs (Some d) None, Exchange.currency_message W))
  /\ (forall a1,
        args !! 1%nat = Some a1 ->
        Py.isdecimal W a1 = false ->
        Exchange.arg_parsing W args =
        Ok (Exchange.mkKwargs None None, Exchange.days_message))
  /\ (w_frozenset_order W ≡ₚ elements Exchange.API_CURRENCIES ->
      forall code,
        code ∈ Exchange.API_CURRENCIES ->
        occurs code (Exchange.currency_message W))
  /\ (forall message user_name s,
        PyStr.startswith "exchange" message = true ->
        PyStr.split " " message = args ->
        gets (trace (snd (Server.message_handle W message user_name s))) =
          gets (trace s)
        /\ heap (snd (Server.message_handle W message user_name s)) = heap s).
Proof.
  intros Ha2 Hc Hout.
  assert (Hsuper :
    Exchange.issuperset (PyStr.split "," (Py.upper W a2)) = false).
  { destruct (Exchange.issuperset _) eqn:Hs; [|reflexivity].
    destruct Hout. by apply (issuperset_elem _ _ Hs). }
  destruct args as [|a0 [|a1 [|a2' rest]]]; try discriminate.
  injection Ha2 as ->.
  pose proof (arg_parsing_third_token_refused W a0 a1 a2 rest Hsuper) as Hparse.
  assert (Hrejected : forall kw error_message,
            Exchange.arg_parsing W (a0 :: a1 :: a2 :: rest) =
              Ok (kw, error_message) ->
            PyStr.truthy error_message = true
            /\ Exchange.kw_currency kw = None).
  { intros kw error_message. rewrite Hparse.
    destruct (Py.isdecimal W a1); [|by intros [= <- <-]].
    destruct (Py.int W a1); [|discriminate]. by intros [= <- <-]. }
  split; [exact Hrejected|]. split; [|split; [|split]].
  - intros a1' d [= <-] Hdec Hint. by rewrite Hparse, Hdec, Hint.
  - intros a1' [= <-] Hdec. by rewrite Hparse, Hdec.
  - intros Hperm code Hcode. unfold Exchange.currency_message.
    apply occurs_app_r, occurs_app_r, occurs_join.
    rewrite Hperm. by apply elem_of_elements.
  - intros message user_name s Hstart Hsplit.
    apply message_handle_rejected_frame; [exact Hstart|].
    rewrite Hsplit. intros kw error_message Hok.
    by destruct (Hrejected kw error_message Hok).
Qed.

Lemma invalid_currency_rejected_witness :
  let args := ["exchange"; "1"; "usd,zzz"] in
  "ZZZ" ∈ PyStr.split "," (Py.upper Demo.good "usd,zzz")
  /\ ("ZZZ" ∉ Exchange.API_CURRENCIES)
  /\ Exchange.arg_parsing Demo.good args =
     Ok (Exchange.mkKwargs (Some 1%Z) None,
         Exchange.currency_message Demo.good)
  /\ occurs "UAH" (Exchange.currency_message Demo.good)
  /\ gets (trace (snd (Server.message_handle Demo.good "exchange 1 usd,zzz"
                         "Peer 0" Demo.logged))) = [].
Proof.
  cbv zeta.
  assert (Hin : "ZZZ" ∈ PyStr.split "," (Py.upper Demo.good "usd,zzz"))
    by apply list_elem_of_further, list_elem_of_here.
  assert (Hout : "ZZZ" ∉ Exchange.API_CURRENCIES) by (by vm_compute).
  destruct (invalid_currency_rejected Demo.good
              ["exchange"; "1"; "usd,zzz"] "usd,zzz" "ZZZ" eq_refl Hin Hout)
    as (_ & Hmsg & _ & Hlist & Hframe).
  split; [exact Hin|]. split; [exact Hout|].
  split; [by apply (Hmsg "1" 1%Z)|]. split.
  - apply Hlist; [reflexivity | by vm_compute].
  - by destruct (Hframe "exchange 1 usd,zzz" "Peer 0" Demo.logged
                   eq_refl eq_refl) as [-> _].
Defined.




(** ** The registry *)

(** C3, at the input that refutes it as stated: nobody is registered;
    unregistering the connection 7 raises KeyError. *)
Lemma unregister_absent_cex :
  (7%nat ∉ clients initial_state)
  /\ fst (Server.unregister Demo.good 7%nat initial_state) = Raise KeyError.
Proof. split; [apply not_elem_of_empty | reflexivity]. Qed.

(** C3, as amended. Unregistering a connection that is not registered
    raises KeyError; the registry and the rest of the state are left as
    they were, and nothing is logged. *)
Theorem unregister_absent_raises (W : World) (c : conn) (s : State) :
  c ∉ clients s ->
  Server.unregister W c s = (Raise KeyError, s).
Proof.
  intros Habsent. unfold Server.unregister, bind, get_state, raise.
  by rewrite bool_decide_eq_false_2.
Qed.

Lemma unregister_absent_raises_witness :
  (7%nat ∉ clients initial_state)
  /\ Server.unregister Demo.good 7%nat initial_state =
     (Raise KeyError, initial_state).
Proof.
  split; [apply not_elem_of_empty|].
  apply (unregister_absent_raises Demo.good 7%nat initial_state).
  apply not_elem_of_empty.
Defined.

(** ** Broadcast *)

Section Broadcast.

Variables (W : World) (message : string).

Lemma add_trace_nil (s : State) : add_trace [] s = s.
Proof. destruct s. unfold add_trace. cbn. by rewrite app_nil_r. Qed.

Lemma add_trace_add_trace (es es' : list event) (s : State) :
  add_trace es' (add_trace es s) = add_trace (es ++ es') s.
Proof. unfold add_trace. cbn. by rewrite app_assoc. Qed.

Lemma for_each_send_ok (cs : list conn) (s : State) :
  (forall c, c ∈ cs -> w_send W c message = None) ->
  for_each cs (Server.send W message) s = (Ok tt, add_trace (delivered message cs) s).
Proof.
  revert s. induction cs as [|c cs IH]; intros s Hall.
  - cbn. by rewrite add_trace_nil.
  - cbn. unfold bind, Server.send at 1.
    rewrite (Hall c) by apply list_elem_of_here. cbn.
    rewrite IH by (intros c' Hc'; by apply Hall, list_elem_of_further).
    by rewrite add_trace_add_trace.
Qed.

Lemma for_each_send_fail (before after : list conn) (failing : conn)
    (e : exn) (s : State) :
  (forall c, c ∈ before -> w_send W c message = None) ->
  w_send W failing message = Some e ->
  for_each (before ++ failing :: after) (Server.send W message) s =
  (Raise e, add_trace (delivered message before) s).
Proof.
  revert s. induction before as [|c before IH]; intros s Hall Hfail.
  - cbn. unfold bind, Server.send at 1. rewrite Hfail. cbn.
    by rewrite add_trace_nil.
  - cbn. unfold bind, Server.send at 1.
    rewrite (Hall c) by apply list_elem_of_here. cbn.
    rewrite IH;
      [|intros c' Hc'; by apply Hall, list_elem_of_further | assumption].
    by rewrite add_trace_add_trace.
Qed.

Lemma delivered_elem (c : conn) (cs : list conn) :
  EvSend c message ∈ delivered message cs <-> c ∈ cs.
Proof.
  unfold delivered. rewrite !list_elem_of_In, in_map_iff. split.
  - by intros (c' & [= ->] & Hin).
  - intros Hin. by exists c.
Qed.

(** The order a set is iterated in lists the set, each member once. *)
Lemma set_order_elem (S : gset conn) (c : conn) :
  w_set_order W S ≡ₚ elements S ->
  c ∈ w_set_order W S <-> c ∈ S.
Proof. intros ->. apply elem_of_elements. Qed.

Lemma set_order_split (S : gset conn) (before after : list conn)
    (failing : conn) :
  w_set_order W S ≡ₚ elements S ->
  w_set_order W S = (before ++ failing :: after)%list ->
  failing ∈ S
  /\ (failing ∉ before)
  /\ (forall c, c ∈ before -> c ∈ S)
  /\ (forall c, c ∈ after -> c ∈ S /\ (c ∉ before) /\ c <> failing).
Proof.
  intros Hperm Horder.
  assert (Hin : forall c, c ∈ (before ++ failing :: after)%list -> c ∈ S).
  { intros c Hc. apply (set_order_elem S c Hperm). by rewrite Horder. }
  assert (Hnodup : NoDup (before ++ failing :: after)%list).
  { rewrite <- Horder, Hperm. apply NoDup_elements. }
  apply NoDup_app in Hnodup as (_ & Hdisjoint & Hrest).
  apply NoDup_cons in Hrest as [Hfailing _].
  split; [apply Hin, elem_of_app; right; apply list_elem_of_here|].
  split.
  { intros Hbefore. apply (Hdisjoint _ Hbefore), list_elem_of_here. }
  split.
  { intros c Hc. apply Hin, elem_of_app. by left. }
  intros c Hc. split; [|split].
  - apply Hin, elem_of_app. right. by apply list_elem_of_further.
  - intros Hbefore. by apply (Hdisjoint _ Hbefore), list_elem_of_further.
  - by intros ->.
Qed.

End Broadcast.

(** C2, at the input that refutes it as stated: the peers 1 and 2 are
    registered, the set is iterated 2 first, and the send to 2 fails.
    The failure reaches the caller of the broadcast, the peer 1, whose
    send would succeed, is sent nothing, nothing is logged and the peer 2
    stays registered. *)
Lemma send_to_clients_failure_cex :
  let r := Server.send_to_clients Demo.good "Peer 0: hello" Demo.two_clients in
  w_set_order Demo.good (clients Demo.two_clients) = [2%nat; 1%nat]
  /\ w_send Demo.good 1%nat "Peer 0: hello" = None
  /\ fst r = Raise (OtherException "ConnectionClosedError")
  /\ trace (snd r) = []
  /\ clients (snd r) = clients Demo.two_clients.
Proof. by vm_compute. Qed.

(** C2, as amended. A broadcast to a non-empty registry sends to the
    registered connections one after the other, each once, in the order
    the set is iterated in.  If the send to one of them fails, the
    exception is raised to the caller of the broadcast; the failing
    connection and those before and after it are registered; the ones
    before it have been sent the message and nothing else has happened;
    the ones after it are other connections and are sent nothing; nothing
    is logged and nobody is unregistered.  If no send to a registered
    connection fails, the broadcast returns, and the connections that
    have been sent the message are exactly the registered ones. *)
Theorem send_to_clients_stops_at_failure (W : World) (message : string)
    (s : State) :
  clients s <> ∅ ->
  w_set_order W (clients s) ≡ₚ elements (clients s) ->
  (forall before failing after e,
     w_set_order W (clients s) = (before ++ failing :: after)%list ->
     (forall c, c ∈ before -> w_send W c message = None) ->
     w_send W failing message = Some e ->
     Server.send_to_clients W message s =
       (Raise e, add_trace (delivered message before) s)
     /\ clients (snd (Server.send_to_clients W message s)) = clients s
     /\ failing ∈ clients s
     /\ (EvSend failing message ∉ delivered message before)
     /\ (forall c, c ∈ before -> c ∈ clients s)
     /\ (forall c, c ∈ after ->
           c ∈ clients s /\ (EvSend c message ∉ delivered message before)))
  /\ ((forall c, c ∈ clients s -> w_send W c message = None) ->
      Server.send_to_clients W message s =
        (Ok tt, add_trace (delivered message (w_set_order W (clients s))) s)
      /\ NoDup (delivered message (w_set_order W (clients s)))
      /\ (forall c,
            EvSend c message ∈ delivered message (w_set_order W (clients s))
            <-> c ∈ clients s)).
Proof.
  intros Hnonempty Hperm.
  assert (Hrun : Server.send_to_clients W message s =
                 for_each (w_set_order W (clients s))
                          (Server.send W message) s).
  { unfold Server.send_to_clients, bind, get_state.
    by rewrite bool_decide_eq_false_2. }
  rewrite Hrun. split.
  - intros before failing after e Horder Hbefore Hfail.
    destruct (set_order_split W _ _ _ _ Hperm Horder)
      as (Hfailing & Hfresh & Hmembers & Hafter).
    rewrite Horder, (for_each_send_fail W message before after failing e s)
      by assumption.
    split; [reflexivity|]. split; [reflexivity|].
    split; [exact Hfailing|]. split; [by rewrite delivered_elem|].
    split; [exact Hmembers|].
    intros c Hc. destruct (Hafter c Hc) as (Hin & Hnot & _).
    split; [exact Hin | by rewrite delivered_elem].
  - intros Hall. split; [|split].
    + apply for_each_send_ok. intros c Hc.
      by apply Hall, (set_order_elem W _ c Hperm).
    + unfold delivered. apply NoDup_fmap_2; [by intros c c' [= ->]|].
      rewrite Hperm. apply NoDup_elements.
    + intros c. rewrite delivered_elem. by apply set_order_elem.
Qed.

Lemma send_to_clients_stops_at_failure_witness :
  clients Demo.two_clients <> ∅
  /\ w_set_order Demo.good (clients Demo.two_clients)
     ≡ₚ elements (clients Demo.two_clients)
  /\ Server.send_to_clients Demo.good "Peer 0: hello" Demo.two_clients =
     (Raise (OtherException "ConnectionClosedError"),
      add_trace (delivered "Peer 0: hello" []) Demo.two_clients)
  /\ 1%nat ∈ clients Demo.two_clients
  /\ (EvSend 1%nat "Peer 0: hello" ∉ delivered "Peer 0: hello" [])
  /\ Server.send_to_clients Demo.good "Peer 0: hello"
       (set_clients (fun _ => {[1%nat]}) initial_state) =
     (Ok tt,
      add_trace (delivered "Peer 0: hello" [1%nat])
                (set_clients (fun _ => {[1%nat]}) initial_state)).
Proof.
  assert (Htwo : clients Demo.two_clients <> ∅) by (by vm_compute).
  assert (Hone : clients (set_clients (fun _ => {[1%nat]}) initial_state) <> ∅)
    by (by vm_compute).
  assert (Hperm2 : w_set_order Demo.good (clients Demo.two_clients)
                   ≡ₚ elements (clients Demo.two_clients))
    by (vm_compute; (reflexivity || apply perm_swap)).
  assert (Hperm1 :
    w_set_order Demo.good
      (clients (set_clients (fun _ => {[1%nat]}) initial_state))
    ≡ₚ elements (clients (set_clients (fun _ => {[1%nat]}) initial_state)))
    by (vm_compute; reflexivity).
  destruct (proj1 (send_to_clients_stops_at_failure Demo.good "Peer 0: hello"
                     Demo.two_clients Htwo Hperm2) [] 2%nat [1%nat]
              (OtherException "ConnectionClosedError") eq_refl
              ltac:(by intros c ?%not_elem_of_nil) eq_refl)
    as (Hraise & _ & _ & _ & _ & Hafter).
  destruct (Hafter 1%nat ltac:(apply list_elem_of_here)) as [Hin Hnot].
  split; [exact Htwo|]. split; [exact Hperm2|]. split; [exact Hraise|].
  split; [exact Hin|]. split; [exact Hnot|].
  apply (proj2 (send_to_clients_stops_at_failure Demo.good "Peer 0: hello"
                  _ Hone Hperm1)).
  intros c Hc. change (c ∈ ({[1%nat]} : gset conn)) in Hc.
  apply elem_of_singleton in Hc as ->. reflexivity.
Defined.

(** * Further properties *)

(** ** The parser of arguments *)



Lemma issuperset_true (xs : list string) :
  Exchange.issuperset xs = true <->
  forall x, x ∈ xs -> x ∈ Exchange.API_CURRENCIES.
Proof.
  split; [intros Hs x; by apply issuperset_elem|].
  intros Hall. unfold Exchange.issuperset. apply forallb_forall.
  intros x Hx. apply bool_decide_eq_true, Hall. by apply list_elem_of_In.
Qed.

Lemma currency_message_truthy (W : World) :
  PyStr.truthy (Exchange.currency_message W) = true.
Proof. reflexivity. Qed.

Lemma truthy_empty (m : string) : PyStr.truthy m = true <-> m <> "".
Proof.
  unfold PyStr.truthy. destruct (String.eqb_spec m ""); cbn; split; intros H;
    congruence.
Qed.

Lemma int_of_decimal_nonneg (s : string) :
  PyStr.isdecimal s = true -> (0 <= PyStr.int_of_decimal s)%Z.
Proof.
  unfold PyStr.isdecimal, PyStr.int_of_decimal.
  intros [_ Hdigits]%andb_true_iff.
  assert (Hgen : forall l acc,
            forallb PyStr.is_digit l = true -> (0 <= acc)%Z ->
            (0 <= fold_left
                    (fun acc c =>
                       10 * acc + (Z.of_nat (nat_of_ascii c) - 48))%Z
                    l acc)%Z).
  { induction l as [|c l IH]; intros acc Hl Hacc; [exact Hacc|].
    cbn in Hl. apply andb_true_iff in Hl as [Hc Hl].
    cbn. apply IH; [exact Hl|].
    unfold PyStr.is_digit in Hc. apply andb_true_iff in Hc as [Hlo _].
    apply Nat.leb_le in Hlo. lia. }
  by apply Hgen.
Qed.


(** The interpreter's builtins on text that is not ASCII, in the world
    of the examples: an Arabic-Indic three is a decimal literal of value
    three, and the long s is put in upper case as S. *)
Lemma arg_parsing_beyond_ascii :
  Py.isdecimal Demo.good Demo.arabic_three = true
  /\ PyStr.isdecimal Demo.arabic_three = false
  /\ Py.upper Demo.good Demo.u_long_s_d = "USD"
  /\ Exchange.arg_parsing Demo.good
       ["exchange"; Demo.arabic_three; Demo.u_long_s_d] =
     Ok (Exchange.mkKwargs (Some 3%Z) (Some ["USD"]), "").
Proof. by vm_compute. Qed.

(** X1. The parser returns with an empty message exactly when the
    day-count token, if there is one, is a decimal literal that [int]
    converts and every code of the currency token, if there is one, is
    on the allow-list once put in upper case. *)
Theorem arg_parsing_accepts_iff (W : World) (args : list string) :
  (exists kw, Exchange.arg_parsing W args = Ok (kw, "")) <->
  (forall a1, args !! 1%nat = Some a1 ->
     Py.isdecimal W a1 = true /\ exists d, Py.int W a1 = Ok d)
  /\ (forall a2 c,
        args !! 2%nat = Some a2 ->
        c ∈ PyStr.split "," (Py.upper W a2) ->
        c ∈ Exchange.API_CURRENCIES).
Proof.
  assert (Hdays : Exchange.days_message <> "") by (by vm_compute).
  assert (Hcurrency : Exchange.currency_message W <> "")
    by apply truthy_empty, currency_message_truthy.
  unfold Exchange.arg_parsing.
  destruct args as [|a0 [|a1 [|a2 rest]]]; cbn [lookup list_lookup].
  - split; [|by eexists]. intros _. by split.
  - split; [|by eexists]. intros _. by split.
  - destruct (Py.isdecimal W a1) eqn:Hdec.
    + destruct (Py.int W a1) as [d|e] eqn:Hint; cbn [rbind].
      * split; [|by eexists]. intros _. split; [|done].
        intros ? [= <-]. split; [done|]. by exists d.
      * split; [intros [kw Hk]; discriminate Hk|]. intros [Hd _].
        destruct (Hd a1 eq_refl) as [_ [d Hd']]. congruence.
    + split; [intros [kw Hk]; congruence|].
      intros [Hd _]. destruct (Hd a1 eq_refl) as [Hd' _]. congruence.
  - destruct (Py.isdecimal W a1) eqn:Hdec.
    + destruct (Py.int W a1) as [d|e] eqn:Hint; cbn [rbind].
      * cbv zeta. cbn [Exchange.kw_days].
        destruct (Exchange.issuperset _) eqn:Hsuper.
        -- split; [|by eexists]. intros _. split.
           ++ intros ? [= <-]. split; [done|]. by exists d.
           ++ intros ? c [= <-]. by apply issuperset_elem.
        -- split; [intros [kw Hk]; congruence|].
           intros [_ Hall].
           assert (Exchange.issuperset
                     (PyStr.split "," (Py.upper W a2)) = true) as Hs
             by (apply issuperset_true; intros x; by apply Hall).
           congruence.
      * split; [intros [kw Hk]; discriminate Hk|]. intros [Hd _].
        destruct (Hd a1 eq_refl) as [_ [d Hd']]. congruence.
    + split; [intros [kw Hk]; congruence|].
      intros [Hd _]. destruct (Hd a1 eq_refl) as [Hd' _]. congruence.
Qed.

(** X2. A currency list handed on by the parser is the currency token in
    upper case, cut at the commas; all of its codes are on the
    allow-list, and the message that comes with it is empty. *)
Theorem arg_parsing_currency_allowed (W : World) (args : list string)
    (kw : Exchange.kwargs) (error_message : string) (cs : list string) :
  Exchange.arg_parsing W args = Ok (kw, error_message) ->
  Exchange.kw_currency kw = Some cs ->
  error_message = ""
  /\ (exists a2, args !! 2%nat = Some a2
                 /\ cs = PyStr.split "," (Py.upper W a2))
  /\ (forall c, c ∈ cs -> c ∈ Exchange.API_CURRENCIES).
Proof.
  unfold Exchange.arg_parsing.
  destruct args as [|a0 [|a1 [|a2 rest]]]; cbn [lookup list_lookup].
  - by intros [= <- <-].
  - by intros [= <- <-].
  - destruct (Py.isdecimal W a1); [|by intros [= <- <-]].
    destruct (Py.int W a1); [|discriminate]. by intros [= <- <-].
  - destruct (Py.isdecimal W a1); [|by intros [= <- <-]].
    destruct (Py.int W a1); [|discriminate]. cbn.
    destruct (Exchange.issuperset _) eqn:Hsuper; [|by intros [= <- <-]].
    intros [= <- <-] [= <-]. split; [reflexivity|]. split; [by exists a2|].
    intros c. by apply issuperset_elem.
Qed.

Lemma arg_parsing_currency_allowed_witness :
  Exchange.arg_parsing Demo.good ["exchange"; "3"; "pln,Gbp"] =
    Ok (Exchange.mkKwargs (Some 3%Z) (Some ["PLN"; "GBP"]), "")
  /\ "GBP" ∈ Exchange.API_CURRENCIES.
Proof.
  destruct (arg_parsing_currency_allowed Demo.good
              ["exchange"; "3"; "pln,Gbp"] _ _ ["PLN"; "GBP"]
              eq_refl eq_refl)
    as (_ & _ & Hall).
  split; [reflexivity|].
  apply Hall, list_elem_of_further, list_elem_of_here.
Defined.


(** X4. The parser hands on a day count exactly when the second token is
    a decimal literal that [int] converts, and the count is the value
    [int] gives: no range is checked.  When the token is an ASCII
    numeral, the count is the value of the numeral and is never
    negative; and every ASCII numeral of at most 640 digits is handed
    on, whatever its value. *)
Theorem arg_parsing_days_nonneg (W : World) (args : list string) (d : Z) :
  ((exists kw error_message,
      Exchange.arg_parsing W args = Ok (kw, error_message)
      /\ Exchange.kw_days kw = Some d) <->
   (exists a1, args !! 1%nat = Some a1
               /\ Py.isdecimal W a1 = true
               /\ Py.int W a1 = Ok d))
  /\ (forall a1,
        args !! 1%nat = Some a1 ->
        PyStr.isdecimal a1 = true ->
        Py.int W a1 = Ok d ->
        d = PyStr.int_of_decimal a1 /\ (0 <= d)%Z)
  /\ (forall a1,
        args !! 1%nat = Some a1 ->
        PyStr.isdecimal a1 = true ->
        (String.length a1 <= 640)%nat ->
        exists kw error_message,
          Exchange.arg_parsing W args = Ok (kw, error_message)
          /\ Exchange.kw_days kw = Some (PyStr.int_of_decimal a1)).
Proof.
  assert (Hback : forall a1 d',
            args !! 1%nat = Some a1 ->
            Py.isdecimal W a1 = true ->
            Py.int W a1 = Ok d' ->
            exists kw error_message,
              Exchange.arg_parsing W args = Ok (kw, error_message)
              /\ Exchange.kw_days kw = Some d').
  { intros a1 d' Ha1 Hdec Hint. unfold Exchange.arg_parsing.
    rewrite Ha1, Hdec, Hint. cbn.
    destruct (args !! 2%nat); [destruct (Exchange.issuperset _)|];
      by do 2 eexists. }
  split; [split|split].
  - intros (kw & error_message & Hparse & Hdays).
    unfold Exchange.arg_parsing in Hparse.
    destruct (args !! 1%nat) as [a1|] eqn:Ha1;
      [|by injection Hparse as <- <-].
    destruct (Py.isdecimal W a1) eqn:Hdec; [|by injection Hparse as <- <-].
    destruct (Py.int W a1) as [d'|e] eqn:Hint; [|discriminate].
    cbn in Hparse.
    destruct (args !! 2%nat); [destruct (Exchange.issuperset _)|];
      injection Hparse as <- <-; cbn in Hdays; injection Hdays as <-;
      by exists a1.
  - intros (a1 & Ha1 & Hdec & Hint). by apply (Hback a1).
  - intros a1 _ Hdec Hint.
    rewrite (int_numeral W a1 Hdec) in Hint.
    destruct (Py.over_limit W (String.length a1)); [discriminate|].
    injection Hint as <-. split; [reflexivity|].
    by apply int_of_decimal_nonneg.
  - intros a1 Ha1 Hdec Hlen.
    apply (Hback a1); [exact Ha1 | by apply isdecimal_numeral |].
    rewrite (int_numeral W a1 Hdec), over_limit_false; [reflexivity|].
    by left.
Qed.

Lemma arg_parsing_days_nonneg_witness :
  Exchange.arg_parsing Demo.good ["exchange"; "0042"; "xyz"] =
    Ok (Exchange.mkKwargs (Some 42%Z) None,
        Exchange.currency_message Demo.good)
  /\ PyStr.isdecimal "0042" = true
  /\ Py.int Demo.good "0042" = Ok 42%Z
  /\ 42%Z = PyStr.int_of_decimal "0042"
  /\ (0 <= 42)%Z
  /\ (exists kw error_message,
        Exchange.arg_parsing Demo.good ["exchange"; "0042"; "xyz"] =
          Ok (kw, error_message)
        /\ Exchange.kw_days kw = Some (PyStr.int_of_decimal "0042")).
Proof.
  destruct (arg_parsing_days_nonneg Demo.good ["exchange"; "0042"; "xyz"]
              42%Z) as (_ & Hvalue & Hany).
  destruct (Hvalue "0042" eq_refl eq_refl eq_refl) as [Heq Hnonneg].
  split; [reflexivity|]. split; [reflexivity|]. split; [reflexivity|].
  split; [exact Heq|]. split; [exact Hnonneg|].
  apply (Hany "0042" eq_refl eq_refl). cbn. lia.
Defined.

(** ** The parser of responses *)

Section ParsResponse.

Import PyVal Exchange.

Lemma is_key_true (k : string) (k0 : pyval) :
  is_key k k0 = true <-> k0 = PStr k.
Proof.
  destruct k0; cbn; try (split; [discriminate | intros [=]]).
  rewrite String.eqb_eq. split; [by intros -> | by intros [= ->]].
Qed.

Lemma is_key_false (k : string) (k0 : pyval) :
  is_key k k0 = false <-> k0 <> PStr k.
Proof.
  rewrite <- is_key_true. by destruct (is_key k k0).
Qed.

(** What was put under a key is what is found under it, and the other
    keys are not disturbed. *)
Lemma lookup_update_eq (k : string) (v : pyval) kvs :
  lookup k (update k v kvs) = Some v.
Proof.
  induction kvs as [|[k0 v0] kvs IH]; cbn.
  - by rewrite String.eqb_refl.
  - destruct (is_key k k0) eqn:Hk; cbn; by rewrite Hk.
Qed.

Lemma lookup_update_ne (k k' : string) (v : pyval) kvs :
  k <> k' -> lookup k' (update k v kvs) = lookup k' kvs.
Proof.
  intros Hne. induction kvs as [|[k0 v0] kvs IH]; cbn.
  - destruct (String.eqb_spec k k'); [done | reflexivity].
  - destruct (is_key k k0) eqn:Hk; cbn; [|by rewrite IH].
    apply is_key_true in Hk as ->. cbn.
    by destruct (String.eqb_spec k k').
Qed.

Lemma update_elem (k : string) (v : pyval) kvs (k' v' : pyval) :
  (k', v') ∈ update k v kvs ->
  (k', v') ∈ kvs \/ (k' = PStr k /\ v' = v).
Proof.
  induction kvs as [|[k0 v0] kvs IH]; cbn.
  - intros [= -> ->]%list_elem_of_singleton. by right.
  - destruct (is_key k k0) eqn:Hk.
    + intros [[= -> ->]|Hin]%elem_of_cons.
      * right. by apply is_key_true in Hk.
      * left. by apply list_elem_of_further.
    + intros [[= -> ->]|Hin]%elem_of_cons.
      * left. apply list_elem_of_here.
      * destruct (IH Hin) as [?|?]; [left|by right].
        by apply list_elem_of_further.
Qed.

Lemma update_keys_NoDup (k : string) (v : pyval) kvs :
  NoDup (map fst kvs) -> NoDup (map fst (update k v kvs)).
Proof.
  induction kvs as [|[k0 v0] kvs IH]; cbn; intros Hnd.
  - apply NoDup_singleton.
  - destruct (is_key k k0) eqn:Hk; cbn; [exact Hnd|].
    apply NoDup_cons in Hnd as [Hnotin Hnd].
    apply NoDup_cons. split; [|by apply IH].
    intros Hin. apply list_elem_of_fmap in Hin as ([k1 v1] & Hk1 & Hin).
    cbn in Hk1. subst k1.
    apply update_elem in Hin as [Hin|[-> _]].
    + apply Hnotin. apply list_elem_of_fmap. by exists (k0, v1).
    + by apply is_key_false in Hk.
Qed.

Lemma in_strings_true (code : pyval) (cur : list string) :
  in_strings code cur = true <-> exists c, code = PStr c /\ c ∈ cur.
Proof.
  destruct code; cbn;
    try (split; [discriminate | by intros (c & [=] & _)]).
  rewrite existsb_exists. split.
  - intros (x & Hx & ->%String.eqb_eq). exists x.
    split; [reflexivity | by apply list_elem_of_In].
  - intros (c & [= ->] & Hc). exists c.
    split; [by apply list_elem_of_In | apply String.eqb_refl].
Qed.

Lemma in_strings_ext (code : pyval) (cur1 cur2 : list string) :
  (forall c, c ∈ cur1 <-> c ∈ cur2) ->
  in_strings code cur1 = in_strings code cur2.
Proof.
  intros Hsame. apply eq_true_iff_eq. rewrite !in_strings_true.
  split; intros (c & -> & Hc); exists c; (split; [reflexivity|]);
    by apply Hsame.
Qed.

Lemma pars_entries_ext (cur1 cur2 : list string) acc items :
  (forall c, c ∈ cur1 <-> c ∈ cur2) ->
  pars_entries cur1 acc items = pars_entries cur2 acc items.
Proof.
  intros Hsame. revert acc. induction items as [|e items IH]; intros acc;
    [reflexivity|].
  cbn. unfold pars_entry.
  destruct (subscript e "currency") as [code|]; [|reflexivity]. cbn.
  destruct code; try apply IH. destruct e; try apply IH.
  rewrite (in_strings_ext _ cur1 cur2 Hsame).
  destruct (in_strings _ cur2); apply IH.
Qed.

Lemma pars_entries_app (cur : list string) acc xs ys :
  pars_entries cur acc (xs ++ ys) =
  rbind (pars_entries cur acc xs) (fun a => pars_entries cur a ys).
Proof.
  revert acc. induction xs as [|e xs IH]; intros acc; [reflexivity|].
  cbn. destruct (pars_entry cur acc e); [apply IH | reflexivity].
Qed.

Lemma pars_entries_rate_map (cur : list string) acc items rates :
  rate_map cur acc ->
  pars_entries cur acc items = Ok rates ->
  rate_map cur rates /\ Forall readable_entry items.
Proof.
  revert acc. induction items as [|e items IH]; intros acc Hacc Hrun.
  - cbn in Hrun. injection Hrun as <-. by split.
  - cbn in Hrun. unfold pars_entry in Hrun.
    destruct e as [| | | | |xs|fields]; try discriminate.
    cbn in Hrun.
    destruct (lookup "currency" fields) as [code|] eqn:Hcode;
      [|discriminate].
    assert (Hread : readable_entry (PDict fields)) by (by exists fields, code).
    cbn in Hrun.
    assert (Hstep : exists acc',
              rate_map cur acc' /\ pars_entries cur acc' items = Ok rates).
    { destruct code as [| | | |c| |]; try (by exists acc).
      destruct (in_strings (PStr c) cur) eqn:Hin; [|by exists acc].
      exists (update c (rate_of fields) acc). split; [|exact Hrun].
      destruct Hacc as [Hnd Hall]. split; [by apply update_keys_NoDup|].
      intros k x [Hold|[-> ->]]%update_elem; [by apply Hall|].
      eexists c, _, _. split; [reflexivity|]. split; [|reflexivity].
      apply in_strings_true in Hin as (c' & [= <-] & Hc). exact Hc. }
    destruct Hstep as (acc' & Hacc' & Hrest).
    destruct (IH acc' Hacc' Hrest) as [Hrates Hitems].
    split; [exact Hrates | by constructor].
Qed.

Lemma rate_of_preferred (fields : list (pyval * pyval)) :
  rate_of fields =
  PDict [ (PStr "sale", preferred_rate "sale" fields);
          (PStr "purchase", preferred_rate "purchase" fields) ].
Proof.
  unfold rate_of, preferred_rate, get_default, unavailable.
  change ("sale" ++ "Rate") with "saleRate".
  change ("sale" ++ "RateNB") with "saleRateNB".
  change ("purchase" ++ "Rate") with "purchaseRate".
  change ("purchase" ++ "RateNB") with "purchaseRateNB".
  by destruct (lookup "saleRate" fields), (lookup "saleRateNB" fields),
    (lookup "purchaseRate" fields), (lookup "purchaseRateNB" fields).
Qed.

(** Entries for other codes leave the rate of [c] as it is. *)
Lemma pars_entries_other (cur : list string) (c : string) acc items rates :
  (forall e, e ∈ items ->
     exists fields code, e = PDict fields
                         /\ lookup "currency" fields = Some code
                         /\ code <> PStr c) ->
  pars_entries cur acc items = Ok rates ->
  lookup c rates = lookup c acc.
Proof.
  revert acc. induction items as [|e items IH]; intros acc Hother Hrun.
  - cbn in Hrun. by injection Hrun as <-.
  - destruct (Hother e) as (fields & code & -> & Hcode & Hne);
      [apply list_elem_of_here|].
    assert (Hrest : forall e', e' ∈ items ->
              exists fields code, e' = PDict fields
                                  /\ lookup "currency" fields = Some code
                                  /\ code <> PStr c)
      by (intros e' He'; by apply Hother, list_elem_of_further).
    cbn in Hrun. unfold pars_entry in Hrun. cbn in Hrun.
    rewrite Hcode in Hrun. cbn in Hrun.
    destruct code as [| | | |c'| |]; try (by apply (IH acc)).
    destruct (in_strings (PStr c') cur); [|by apply (IH acc)].
    rewrite (IH _ Hrest Hrun). apply lookup_update_ne. congruence.
Qed.

(** X5. Whatever the parser returns is either the empty map or a map
    with one key, the "date" member of the response, whose value is a
    map of rates: distinct keys, each one of the requested codes, each
    with exactly a "sale" and a "purchase" member. *)
Theorem pars_response_shape (response : pyval) (cur : list string)
    (v : pyval) :
  pars_response response cur = Ok v ->
  exists kvs, response = PDict kvs
    /\ (v = PDict []
        \/ exists d rates,
             v = PDict [(d, PDict rates)]
             /\ lookup "date" kvs = Some d
             /\ hashable d = true
             /\ rate_map cur rates).
Proof.
  unfold pars_response. destruct response as [| | | | | |kvs];
    try discriminate.
  intros Hrun. exists kvs. split; [reflexivity|].
  destruct (lookup "exchangeRate" kvs) as [rates|];
    [|left; by injection Hrun as <-].
  assert (Hcases : rates = PNone \/
            rbind (iterate rates) (fun items =>
            rbind (pars_entries cur [] items) (fun exchange_rate =>
            rbind (subscript (PDict kvs) "date") (fun d =>
            if hashable d then Ok (PDict [(d, PDict exchange_rate)])
            else Raise TypeError))) = Ok v)
    by (destruct rates; auto).
  destruct Hcases as [-> | Hrun']; [left; by injection Hrun as <-|].
  right. destruct (iterate rates) as [items|]; [|discriminate].
  cbn in Hrun'.
  destruct (pars_entries cur [] items) as [er|] eqn:Her; [|discriminate].
  cbn in Hrun'. destruct (lookup "date" kvs) as [d|]; [|discriminate].
  cbn in Hrun'. destruct (hashable d) eqn:Hd; [|discriminate].
  injection Hrun' as <-. exists d, er.
  repeat split; try done.
  - apply (pars_entries_rate_map cur [] items er); [|exact Her].
    split; [constructor | by intros k x ?%not_elem_of_nil].
  - apply (pars_entries_rate_map cur [] items er); [|exact Her].
    split; [constructor | by intros k x ?%not_elem_of_nil].
Qed.

Lemma pars_response_shape_witness :
  exists d rates,
    pars_response (Demo.body "03.11.2026") ["EUR"; "PLN"] =
    Ok (PDict [(d, PDict rates)])
    /\ rate_map ["EUR"; "PLN"] rates.
Proof.
  destruct (pars_response_shape (Demo.body "03.11.2026") ["EUR"; "PLN"] _
              eq_refl) as (kvs & _ & [Hempty | (d & rates & Hv & _ & _ & Hmap)]);
    [discriminate|].
  exists d, rates. split; [|exact Hmap].
  rewrite <- Hv. reflexivity.
Defined.

Lemma pars_response_ext (response : pyval) (cur1 cur2 : list string) :
  (forall c, c ∈ cur1 <-> c ∈ cur2) ->
  pars_response response cur1 = pars_response response cur2.
Proof.
  intros Hsame. unfold pars_response.
  destruct response as [| | | | | |kvs]; try reflexivity.
  destruct (lookup "exchangeRate" kvs) as [rates|]; [|reflexivity].
  destruct rates; try reflexivity; cbn;
    by rewrite (pars_entries_ext cur1 cur2 _ _ Hsame).
Qed.

(** X6. The parser asks only which codes are in the list it is given:
    two lists with the same members, whatever their order and however
    often a code is repeated, give the same result. *)
Theorem pars_response_members_only (response : pyval)
    (cur1 cur2 : list string) :
  (forall c, c ∈ cur1 <-> c ∈ cur2) ->
  pars_response response cur1 = pars_response response cur2.
Proof. apply pars_response_ext. Qed.

Lemma pars_response_members_only_witness :
  pars_response (Demo.body "03.11.2026") ["EUR"; "USD"] =
  pars_response (Demo.body "03.11.2026") ["USD"; "EUR"; "USD"; "EUR"].
Proof.
  apply pars_response_members_only. intros c.
  rewrite !list_elem_of_In. cbn. tauto.
Defined.

(** X7. When a requested code has several entries in one response, the
    last of them gives its rate; the rate is the bank's own
    ("saleRate", "purchaseRate") when the entry has it, else the
    national bank's ("saleRateNB", "purchaseRateNB"), else
    "unavailable". *)
Theorem pars_response_last_entry_wins (kvs : list (pyval * pyval))
    (cur : list string) (xs ys : list pyval)
    (fields : list (pyval * pyval)) (c : string) (v : pyval) :
  lookup "exchangeRate" kvs = Some (PList (xs ++ PDict fields :: ys)) ->
  lookup "currency" fields = Some (PStr c) ->
  c ∈ cur ->
  (forall e, e ∈ ys ->
     exists fields' code, e = PDict fields'
                          /\ lookup "currency" fields' = Some code
                          /\ code <> PStr c) ->
  pars_response (PDict kvs) cur = Ok v ->
  exists d rates,
    v = PDict [(d, PDict rates)]
    /\ lookup c rates =
       Some (PDict [ (PStr "sale", preferred_rate "sale" fields);
                     (PStr "purchase", preferred_rate "purchase" fields) ]).
Proof.
  intros Hrates Hcode Hc Hys Hrun.
  unfold pars_response in Hrun. rewrite Hrates in Hrun. cbn in Hrun.
  rewrite pars_entries_app in Hrun.
  destruct (pars_entries cur [] xs) as [acc|]; [|discriminate].
  cbn [rbind pars_entries] in Hrun.
  assert (Hstep : pars_entry cur acc (PDict fields) =
                  Ok (update c (rate_of fields) acc)).
  { unfold pars_entry. cbn [subscript]. rewrite Hcode. cbn [rbind].
    assert (Hin : in_strings (PStr c) cur = true)
      by (apply in_strings_true; by exists c).
    by rewrite Hin. }
  rewrite Hstep in Hrun. cbn [rbind] in Hrun.
  destruct (pars_entries cur (update c (rate_of fields) acc) ys)
    as [rates|] eqn:Hrest; [|discriminate].
  cbn in Hrun. destruct (lookup "date" kvs) as [d|]; [|discriminate].
  cbn in Hrun. destruct (hashable d); [|discriminate].
  injection Hrun as <-. exists d, rates. split; [reflexivity|].
  rewrite (pars_entries_other cur c _ ys rates Hys Hrest).
  by rewrite lookup_update_eq, rate_of_preferred.
Qed.

Lemma pars_response_last_entry_wins_witness :
  exists d rates,
    pars_response
      (PDict [ (PStr "date", PStr "03.11.2026");
               (PStr "exchangeRate",
                PList [ Demo.entry "USD" [(PStr "saleRate", PInt 40)];
                        Demo.entry "USD" [(PStr "saleRateNB", PInt 41)];
                        Demo.entry "GBP" [] ]) ])
      ["USD"]
    = Ok (PDict [(d, PDict rates)])
    /\ lookup "USD" rates =
       Some (PDict [ (PStr "sale", PInt 41);
                     (PStr "purchase", PStr "unavailable") ]).
Proof.
  destruct (pars_response_last_entry_wins
              [ (PStr "date", PStr "03.11.2026");
                (PStr "exchangeRate",
                 PList [ Demo.entry "USD" [(PStr "saleRate", PInt 40)];
                         Demo.entry "USD" [(PStr "saleRateNB", PInt 41)];
                         Demo.entry "GBP" [] ]) ]
              ["USD"]
              [Demo.entry "USD" [(PStr "saleRate", PInt 40)]]
              [Demo.entry "GBP" []]
              [ (PStr "baseCurrency", PStr "UAH"); (PStr "currency", PStr "USD");
                (PStr "saleRateNB", PInt 41) ]
              "USD" _ eq_refl eq_refl
              ltac:(apply list_elem_of_here)
              ltac:(intros e ->%list_elem_of_singleton;
                    by eexists _, (PStr "GBP"))
              eq_refl)
    as (d & rates & Hv & Hrate).
  exists d, rates. split; [|exact Hrate].
  rewrite <- Hv. reflexivity.
Defined.

(** X8. The parser returns only when the "exchangeRate" member, if it is
    a list, holds nothing but dicts that have a "currency" member,
    requested or not: one entry of another kind, anywhere in the list,
    makes the whole response raise. *)
Theorem pars_response_needs_readable_entries (kvs : list (pyval * pyval))
    (cur : list string) (items : list pyval) (v : pyval) :
  lookup "exchangeRate" kvs = Some (PList items) ->
  pars_response (PDict kvs) cur = Ok v ->
  Forall readable_entry items.
Proof.
  intros Hrates Hrun. unfold pars_response in Hrun.
  rewrite Hrates in Hrun. cbn in Hrun.
  destruct (pars_entries cur [] items) as [er|] eqn:Her; [|discriminate].
  apply (pars_entries_rate_map cur [] items er); [|exact Her].
  split; [constructor | by intros k x ?%not_elem_of_nil].
Qed.

Lemma pars_response_needs_readable_entries_witness :
  Forall readable_entry
    [ Demo.entry "EUR" []; Demo.entry "XXX" [(PStr "saleRate", PInt 1)] ].
Proof.
  apply (pars_response_needs_readable_entries
           [ (PStr "date", PStr "03.11.2026");
             (PStr "exchangeRate",
              PList [ Demo.entry "EUR" [];
                      Demo.entry "XXX" [(PStr "saleRate", PInt 1)] ]) ]
           ["EUR"] _
           (PDict [(PStr "03.11.2026",
                    PDict [(PStr "EUR",
                            PDict [(PStr "sale", PStr "unavailable");
                                   (PStr "purchase", PStr "unavailable")])])]));
    reflexivity.
Defined.

End ParsResponse.

(** ** Rendering *)

Section Rendering.

Import PyStr Exchange.

Variable W : World.

Lemma has_char_app (c : ascii) (a b : string) :
  has_char c (a ++ b) = has_char c a || has_char c b.
Proof.
  induction a as [|x a IH]; [reflexivity|].
  change (String x a ++ b) with (String x (a ++ b)). cbn.
  rewrite IH. by rewrite orb_assoc.
Qed.

Lemma replace_removes (c : ascii) (by_ s : string) :
  has_char c by_ = false -> has_char c (replace c by_ s) = false.
Proof.
  intros Hby. induction s as [|a s IH]; [reflexivity|]. cbn.
  destruct (Ascii.eqb a c) eqn:Hac.
  - by rewrite has_char_app, Hby, IH.
  - cbn. by rewrite Hac, IH.
Qed.

Lemma replace_keeps_absent (c d : ascii) (by_ s : string) :
  has_char c by_ = false -> has_char c s = false ->
  has_char c (replace d by_ s) = false.
Proof.
  intros Hby. induction s as [|a s IH]; [reflexivity|]. cbn.
  intros [Hac Hs]%orb_false_iff.
  destruct (Ascii.eqb a d).
  - by rewrite has_char_app, Hby, IH.
  - cbn. by rewrite Hac, IH.
Qed.

Lemma response_to_html_acc (response : list pyval) (acc : string) :
  fold_left (fun html el => html ++ element_to_html W el) response acc =
  acc ++ response_to_html W response.
Proof.
  unfold response_to_html. revert acc.
  induction response as [|el response IH]; intros acc; cbn.
  - by rewrite string_app_nil_r.
  - rewrite (IH (acc ++ _)), (IH ("" ++ _)).
    by rewrite string_app_assoc.
Qed.

Lemma response_to_html_concat (xs ys : list pyval) :
  response_to_html W (xs ++ ys) =
  response_to_html W xs ++ response_to_html W ys.
Proof.
  unfold response_to_html at 1. rewrite fold_left_app.
  fold (response_to_html W xs). apply response_to_html_acc.
Qed.

(** X9. The markup of a list is the markup of its elements one after
    the other, in the order of the list, with nothing put between them:
    rendering is additive over concatenation. *)
Theorem response_to_html_app (xs ys : list pyval) :
  response_to_html W (xs ++ ys) =
  response_to_html W xs ++ response_to_html W ys.
Proof. apply response_to_html_concat. Qed.

Lemma element_to_html_clean (el : pyval) :
  has_char "'" (element_to_html W el) = false
  /\ has_char "{" (element_to_html W el) = false
  /\ has_char "," (element_to_html W el) = false
  /\ has_char "}" (element_to_html W el) = false.
Proof.
  unfold element_to_html. repeat split.
  - do 3 (apply replace_keeps_absent; [reflexivity|]).
    by apply replace_removes.
  - do 2 (apply replace_keeps_absent; [reflexivity|]).
    by apply replace_removes.
  - apply replace_keeps_absent; [reflexivity|]. by apply replace_removes.
  - by apply replace_removes.
Qed.

(** X10. The markup never holds a quote, a brace or a comma, whatever
    the text of the results is: each of them has been taken out or
    replaced by a tag. *)
Theorem response_to_html_clean (response : list pyval) :
  has_char "'" (response_to_html W response) = false
  /\ has_char "{" (response_to_html W response) = false
  /\ has_char "," (response_to_html W response) = false
  /\ has_char "}" (response_to_html W response) = false.
Proof.
  induction response as [|el response IH] using rev_ind.
  - by repeat split.
  - rewrite response_to_html_concat, !has_char_app.
    destruct IH as (-> & -> & -> & ->).
    change (response_to_html W [el]) with ("" ++ element_to_html W el).
    change ("" ++ element_to_html W el) with (element_to_html W el).
    by destruct (element_to_html_clean el) as (-> & -> & -> & ->).
Qed.

(** ** One request *)

(** X11. A connection that cannot be made never surfaces as an
    exception of [get_request]: the call can raise only what the
    transport raised otherwise, or what reading the JSON body of a
    status-200 response raised. *)
Theorem get_request_raises_only (u : string) :
  (forall text, get_request W u <> Raise (ClientConnectorError text))
  /\ (forall e, get_request W u = Raise e ->
        w_http W u = Failure e \/ w_http W u = Response 200 (Raise e)).
Proof.
  unfold get_request, connection_errors, get_request_body. split.
  - intros text.
    destruct (w_http W u) as [t|e|status json]; [done| |].
    + by destruct e.
    + destruct (status =? 200)%Z; [|done]. by destruct json as [|[]].
  - intros e.
    destruct (w_http W u) as [t|e'|status json]; [done| |].
    + destruct e'; intros [= <-]; by left.
    + destruct (status =? 200)%Z eqn:Hs; [|done].
      apply Z.eqb_eq in Hs as ->.
      destruct json as [|[]]; intros [= <-]; by right.
Qed.

(** X12. A response whose status is not 200 becomes the string "Error
    status: <status> for <url>", in which the status and the URL can be
    read; its body is not looked at. *)
Theorem get_request_status_marker (u : string) (status : Z)
    (json : result pyval) :
  w_http W u = Response status json ->
  status <> 200%Z ->
  get_request W u =
    Ok (PStr ("Error status: " ++ pretty status ++ " for " ++ u))
  /\ occurs (pretty status)
            ("Error status: " ++ pretty status ++ " for " ++ u)
  /\ occurs u ("Error status: " ++ pretty status ++ " for " ++ u).
Proof.
  intros Hhttp Hstatus.
  unfold get_request, connection_errors, get_request_body.
  rewrite Hhttp. apply Z.eqb_neq in Hstatus. rewrite Hstatus.
  split; [reflexivity|]. split.
  - apply occurs_app_r, occurs_app_l, occurs_self.
  - do 3 apply occurs_app_r. apply occurs_self.
Qed.

End Rendering.

Lemma get_request_status_marker_witness :
  Exchange.get_request Demo.unavailable_503 (Demo.url_of (Demo.today - 1)) =
  Ok (PStr ("Error status: " ++ pretty 503%Z ++ " for "
            ++ Demo.url_of (Demo.today - 1)))
  /\ occurs "503"
       ("Error status: " ++ pretty 503%Z ++ " for "
        ++ Demo.url_of (Demo.today - 1)).
Proof.
  destruct (get_request_status_marker Demo.unavailable_503
              (Demo.url_of (Demo.today - 1)) 503
              (Raise (OtherException "ContentTypeError"))
              eq_refl ltac:(discriminate)) as (Hmarker & Hstatus & _).
  split; [exact Hmarker | exact Hstatus].
Defined.

Lemma get_request_raises_only_witness :
  Exchange.get_request Demo2.timeout (Demo.url_of (Demo.today - 1)) =
  Raise (OtherException "TimeoutError")
  /\ w_http Demo2.timeout (Demo.url_of (Demo.today - 1)) =
     Failure (OtherException "TimeoutError").
Proof.
  split; [reflexivity|].
  destruct (proj2 (get_request_raises_only Demo2.timeout
                     (Demo.url_of (Demo.today - 1)))
                  (OtherException "TimeoutError") eq_refl) as [H|H];
    [exact H | discriminate H].
Defined.

(** ** More on the batch *)

Section Batch.

Import Exchange.

Variable W : World.

Lemma rmap_ext {A B} (f g : A -> result B) (xs : list A) :
  (forall x, f x = g x) -> rmap f xs = rmap g xs.
Proof.
  intros Hfg. induction xs as [|x xs IH]; [reflexivity|].
  cbn. by rewrite Hfg, IH.
Qed.

Lemma rmap_raise_inv {A B} (f : A -> result B) (xs : list A) (e : exn) :
  rmap f xs = Raise e -> exists x, x ∈ xs /\ f x = Raise e.
Proof.
  induction xs as [|x xs IH]; [discriminate|]. cbn.
  destruct (f x) as [y|e'] eqn:Hfx; cbn.
  - destruct (rmap f xs) as [ys|e'']; [discriminate|]. intros [= ->].
    destruct (IH eq_refl) as (x' & Hx' & Hfx').
    exists x'. split; [by apply list_elem_of_further | exact Hfx'].
  - intros [= ->]. exists x. split; [apply list_elem_of_here | exact Hfx].
Qed.

(** What [gather] raises was raised by one of the awaitables. *)
Lemma gather_raise_inv {A} (order : list nat) (rs : list (result A))
    (e : exn) :
  gather order rs = Raise e -> Raise e ∈ rs.
Proof.
  unfold gather.
  destruct (first_raise order rs) as [e'|] eqn:Hfirst.
  - intros [= ->]. induction order as [|i order IH]; [discriminate|].
    cbn in Hfirst. destruct (rs !! i) as [[v|e']|] eqn:Hi; try by apply IH.
    injection Hfirst as ->. by apply list_elem_of_lookup_2 in Hi.
  - intros Hrun. apply rmap_raise_inv in Hrun as (r & Hr & ->). exact Hr.
Qed.

Lemma range_nonpositive (days : Z) :
  (days <= 0)%Z -> range (clamp_days days) = [].
Proof.
  intros Hdays. unfold clamp_days, MAX_DAYS.
  pose proof (Zgt_cases days 10) as Hc.
  destruct (days >? 10)%Z; [lia|].
  unfold range. by replace (Z.to_nat days) with 0%nat by lia.
Qed.

(** X13. One call never issues more than ten requests, whatever day
    count it is given; the requests are all it adds to the trace. *)
Theorem exchange_rates_at_most_ten (days : Z) (currency : option loc)
    (s : State) :
  exists urls,
    trace (snd (exchange_rates W days currency s)) =
      (trace s ++ map EvGet urls)%list
    /\ (length urls <= 10)%nat.
Proof.
  rewrite exchange_rates_eq.
  destruct (rmap (request_url W) (range (clamp_days days)))
    as [urls|e] eqn:Hurls.
  - exists urls. split; [reflexivity|].
    rewrite (rmap_length _ _ _ Hurls), length_range.
    pose proof (clamp_days_le days). lia.
  - exists []. cbn. split; [by rewrite app_nil_r | lia].
Qed.

(** X14. A day count of zero or below asks for nothing: no request is
    made and the empty list is returned, as for zero. *)
Theorem exchange_rates_nonpositive (days : Z) (currency : option loc)
    (s : State) :
  (days <= 0)%Z ->
  exchange_rates W days currency s = exchange_rates W 0 currency s
  /\ fst (exchange_rates W days currency s) = Ok []
  /\ trace (snd (exchange_rates W days currency s)) = trace s.
Proof.
  intros Hdays.
  rewrite !exchange_rates_eq, (range_nonpositive days Hdays),
    (range_nonpositive 0 ltac:(lia)).
  cbn [rmap map length fst snd].
  rewrite (gather_all_ok _ [] [] eq_refl).
  split; [reflexivity|]. split; [reflexivity | apply app_nil_r].
Qed.

(** X15. When the request of some day raises, so does the batch: every
    request has been issued, nothing is parsed, and the exception is one
    that a request of the batch raised. *)
Theorem exchange_rates_uncaught_failure (days : Z) (currency : option loc)
    (s : State) (urls : list string) (u : string) (e : exn) :
  rmap (request_url W) (range (clamp_days days)) = Ok urls ->
  u ∈ urls ->
  get_request W u = Raise e ->
  gets (trace (snd (exchange_rates W days currency s))) =
    (gets (trace s) ++ urls)%list
  /\ exists u' e',
       u' ∈ urls /\ get_request W u' = Raise e'
       /\ fst (exchange_rates W days currency s) = Raise e'.
Proof.
  intros Hurls Hu Hraise. rewrite exchange_rates_eq, Hurls. cbn [fst snd].
  split; [cbn; by rewrite gets_app, gets_map_EvGet|].
  destruct (gather _ _) as [cources|e'] eqn:Hgather.
  - apply gather_ok_inv in Hgather. rewrite rmap_map in Hgather.
    destruct (rmap_ok_inv _ _ _ _ Hgather Hu) as (y & Hy & _). congruence.
  - apply gather_raise_inv in Hgather.
    apply list_elem_of_fmap in Hgather as (u' & Hu' & Hin).
    by exists u', e'.
Qed.

(** X16. The list a call works on grows with every call, but what a
    later call returns does not depend on that: after any earlier call
    on the same list, a call returns what it would have returned
    without it. *)
Theorem exchange_rates_result_stable (d d' : Z) (currency : option loc)
    (s : State) :
  fst (exchange_rates W d currency (snd (exchange_rates W d' currency s))) =
  fst (exchange_rates W d currency s).
Proof.
  rewrite (exchange_rates_eq W d), (exchange_rates_eq W d _ s).
  rewrite (exchange_rates_heap W d'), !heap_extended, Nat.eqb_refl.
  destruct (rmap (request_url W) (range (clamp_days d))) as [urls|e];
    [|reflexivity].
  cbn [fst]. destruct (gather _ _) as [cources|e]; [|reflexivity].
  cbn [rbind]. apply rmap_ext. intros course. apply pars_response_ext.
  intros c. destruct (Nat.eqb_spec base_currency_loc (target currency))
    as [Heq|Hne].
  - rewrite <- Heq. rewrite !elem_of_app. tauto.
  - rewrite !elem_of_app. tauto.
Qed.

End Batch.

Lemma exchange_rates_nonpositive_witness :
  (-3 <= 0)%Z
  /\ fst (Exchange.exchange_rates Demo.good (-3) None initial_state) = Ok []
  /\ trace (snd (Exchange.exchange_rates Demo.good (-3) None initial_state))
     = [].
Proof.
  destruct (exchange_rates_nonpositive Demo.good (-3) None initial_state
              ltac:(by vm_compute)) as (_ & Hres & Htrace).
  split; [by vm_compute|]. split; [exact Hres | exact Htrace].
Defined.

Lemma exchange_rates_uncaught_failure_witness :
  Exchange.get_request Demo2.timeout (Demo.url_of (Demo.today - 1)) =
    Raise (OtherException "TimeoutError")
  /\ gets (trace (snd (Exchange.exchange_rates Demo2.timeout 2 None
                         initial_state))) =
     [Demo.url_of Demo.today; Demo.url_of (Demo.today - 1)]
  /\ is_ok (fst (Exchange.exchange_rates Demo2.timeout 2 None initial_state))
     = false.
Proof.
  destruct (exchange_rates_uncaught_failure Demo2.timeout 2 None initial_state
              [Demo.url_of Demo.today; Demo.url_of (Demo.today - 1)]
              (Demo.url_of (Demo.today - 1))
              (OtherException "TimeoutError")
              eq_refl
              ltac:(apply list_elem_of_further, list_elem_of_here)
              eq_refl)
    as (Hgets & u' & e' & _ & _ & Hfst).
  split; [reflexivity|]. split; [exact Hgets|]. by rewrite Hfst.
Defined.

(** ** What each step of a command may change *)

Section Frames.

Variable W : World.

(** The audit step changes the log and the trace, nothing else. *)
Lemma audit_keeps (user_name message : string) (s : State) :
  same_peers s (snd (audit W user_name message s))
  /\ same_lists s (snd (audit W user_name message s)).
Proof.
  unfold audit, Server.logger, AsyncLog.set_file, AsyncLog.log, AsyncLog.fs,
    emit, modify, raise, ret, get_state, bind, same_peers, same_lists.
  destruct (file_logger s) as [[|]|]; cbn; [done| |].
  - by destruct (w_fs W Append).
  - destruct (w_fs W IsFile); cbn; [done|].
    destruct (log_file s); cbn; [|done].
    by destruct (w_fs W Append).
Qed.

(** The audit step never rewrites the log: it adds at most one line
    after the lines that are there. *)
Lemma audit_log_grows (user_name message : string) (s : State) :
  exists new,
    log_lines (snd (audit W user_name message s)) = (log_lines s ++ new)%list
    /\ (length new <= 1)%nat.
Proof.
  unfold audit, Server.logger, AsyncLog.set_file, AsyncLog.log, AsyncLog.fs,
    emit, modify, raise, ret, get_state, bind, log_lines.
  assert (Hnil : forall l : list string,
            exists new, l = (l ++ new)%list /\ (length new <= 1)%nat).
  { intros l. exists []. split; [by rewrite app_nil_r | cbn; lia]. }
  assert (Hone : forall (l : list string) x,
            exists new, (l ++ [x])%list = (l ++ new)%list
                        /\ (length new <= 1)%nat).
  { intros l x. exists [x]. split; [reflexivity | cbn; lia]. }
  destruct (file_logger s) as [[|]|]; cbn.
  - apply Hnil.
  - destruct (w_fs W Append); cbn; [apply Hnil | apply Hone].
  - destruct (w_fs W IsFile); cbn; [apply Hnil|].
    destruct (log_file s) eqn:Hfile; cbn; rewrite ?Hfile; cbn;
      [|apply Hnil].
    destruct (w_fs W Append); cbn; rewrite ?Hfile; cbn;
      [apply Hnil | apply Hone].
Qed.

(** A call of [exchange_rates] leaves the state with the base currencies
    appended to its list and at most ten requests added to the trace. *)
Lemma exchange_rates_state (days : Z) (currency : option loc) (s : State) :
  exists urls,
    snd (Exchange.exchange_rates W days currency s) =
      add_trace (map EvGet urls) (extended currency s)
    /\ (length urls <= 10)%nat.
Proof.
  rewrite exchange_rates_eq.
  destruct (rmap (Exchange.request_url W)
                 (Exchange.range (Exchange.clamp_days days)))
    as [urls|e] eqn:Hurls.
  - exists urls. split; [reflexivity|].
    rewrite (rmap_length _ _ _ Hurls), length_range.
    pose proof (clamp_days_le days). lia.
  - exists []. cbn [snd map]. rewrite add_trace_nil. split; [reflexivity|].
    cbn. lia.
Qed.

(** The state in which [exchange_rates] is entered when it is called
    with the keywords [kw], and the list it is given. *)
Lemma exchange_rates_kwargs_eq (kw : Exchange.kwargs) (s : State) :
  Exchange.exchange_rates_kwargs W kw s =
  match Exchange.kw_currency kw with
  | Some cs =>
      Exchange.exchange_rates W (default 1%Z (Exchange.kw_days kw))
        (Some (next_loc s)) (bump_loc (set_heap (next_loc s) cs s))
  | None =>
      Exchange.exchange_rates W (default 1%Z (Exchange.kw_days kw)) None s
  end.
Proof.
  unfold Exchange.exchange_rates_kwargs, Exchange.alloc, bind, get_state,
    modify, ret.
  by destruct (Exchange.kw_currency kw).
Qed.

Lemma exchange_rates_kwargs_keeps (kw : Exchange.kwargs) (s : State) :
  same_peers s (snd (Exchange.exchange_rates_kwargs W kw s))
  /\ same_log s (snd (Exchange.exchange_rates_kwargs W kw s))
  /\ exists urls,
       trace (snd (Exchange.exchange_rates_kwargs W kw s)) =
         (trace s ++ map EvGet urls)%list
       /\ (length urls <= 10)%nat.
Proof.
  rewrite exchange_rates_kwargs_eq.
  destruct (Exchange.kw_currency kw) as [cs|].
  - destruct (exchange_rates_state (default 1%Z (Exchange.kw_days kw))
                (Some (next_loc s)) (bump_loc (set_heap (next_loc s) cs s)))
      as (urls & -> & Hlen).
    repeat split; try done. by exists urls.
  - destruct (exchange_rates_state (default 1%Z (Exchange.kw_days kw))
                None s) as (urls & -> & Hlen).
    repeat split; try done. by exists urls.
Qed.

(** [message_handle] on a command: the audit step, then the parser, then
    the fetch if the parser gave no message. *)
Lemma message_handle_eq (message user_name : string) (s : State) :
  PyStr.startswith "exchange" message = true ->
  Server.message_handle W message user_name s =
  match audit W user_name message s with
  | (Raise e, s1) => (Raise e, s1)
  | (Ok _, s1) =>
      match Exchange.arg_parsing W (PyStr.split " " message) with
      | Raise e => (Raise e, s1)
      | Ok (kw, error_message) =>
          if PyStr.truthy error_message
          then (Ok ((message ++ " result:") ++ error_message), s1)
          else
            match Exchange.exchange_rates_kwargs W kw s1 with
            | (Ok rates, s2) =>
                (Ok ((message ++ " result:")
                     ++ Exchange.response_to_html W rates), s2)
            | (Raise e, s2) => (Raise e, s2)
            end
      end
  end.
Proof.
  intros Hstart. unfold Server.message_handle, audit, bind.
  rewrite Hstart.
  destruct (Server.logger W s) as [[lg|e] s0]; [|reflexivity].
  destruct (AsyncLog.log W lg _ s0) as [[[]|e] s1]; [|reflexivity].
  destruct (Exchange.arg_parsing W (PyStr.split " " message))
    as [[kw error_message]|e]; [|reflexivity].
  cbn. destruct (PyStr.truthy error_message); [reflexivity|].
  by destruct (Exchange.exchange_rates_kwargs W kw s1) as [[rates|e] s2].
Qed.

(** The state a command leaves is the one after the audit step, or the
    one after the fetch that followed it. *)
Lemma message_handle_state (message user_name : string) (s : State) :
  PyStr.startswith "exchange" message = true ->
  snd (Server.message_handle W message user_name s) =
    snd (audit W user_name message s)
  \/ exists kw,
       Exchange.arg_parsing W (PyStr.split " " message) = Ok (kw, "")
       /\ snd (Server.message_handle W message user_name s) =
          snd (Exchange.exchange_rates_kwargs W kw
                 (snd (audit W user_name message s))).
Proof.
  intros Hstart. rewrite (message_handle_eq _ _ _ Hstart).
  destruct (audit W user_name message s) as [[[]|e] s1]; [|by left].
  cbn [snd].
  destruct (Exchange.arg_parsing W (PyStr.split " " message))
    as [[kw error_message]|e]; [|by left].
  destruct (PyStr.truthy error_message) eqn:Htruthy; [by left|]. right.
  exists kw. split.
  - unfold PyStr.truthy in Htruthy. apply negb_false_iff in Htruthy.
    by apply String.eqb_eq in Htruthy as ->.
  - by destruct (Exchange.exchange_rates_kwargs W kw s1) as [[rates|e] s2].
Qed.

Lemma message_handle_accepted_state (message user_name : string)
    (s : State) (kw : Exchange.kwargs) :
  PyStr.startswith "exchange" message = true ->
  fst (audit W user_name message s) = Ok tt ->
  Exchange.arg_parsing W (PyStr.split " " message) = Ok (kw, "") ->
  snd (Server.message_handle W message user_name s) =
  snd (Exchange.exchange_rates_kwargs W kw
         (snd (audit W user_name message s))).
Proof.
  intros Hstart Haudit Hparse. rewrite (message_handle_eq _ _ _ Hstart).
  destruct (audit W user_name message s) as [[[]|e] s1]; [|discriminate].
  rewrite Hparse. cbn.
  by destruct (Exchange.exchange_rates_kwargs W kw s1) as [[rates|e] s2].
Qed.

(** X17. A command never rewrites the log: whatever the world does, the
    lines that were in the file are still there, in their order, and at
    most one line has been added after them. *)
Theorem message_handle_log_append_only (message user_name : string)
    (s : State) :
  exists new,
    log_lines (snd (Server.message_handle W message user_name s)) =
      (log_lines s ++ new)%list
    /\ (length new <= 1)%nat.
Proof.
  destruct (PyStr.startswith "exchange" message) eqn:Hstart.
  - destruct (audit_log_grows user_name message s) as (new & Hnew & Hlen).
    exists new. split; [|exact Hlen]. rewrite <- Hnew.
    destruct (message_handle_state message user_name s Hstart)
      as [-> | (kw & _ & ->)]; [reflexivity|].
    destruct (exchange_rates_kwargs_keeps kw
                (snd (audit W user_name message s)))
      as (_ & (_ & Hfile & _) & _).
    unfold log_lines. by rewrite Hfile.
  - unfold Server.message_handle. rewrite Hstart. cbn.
    exists []. split; [by rewrite app_nil_r | cbn; lia].
Qed.

(** X18. The logger is stored before its file is set, and the call that
    should create a missing log file raises TypeError.  So if the log
    file is missing, the first command raises TypeError, makes no
    request, creates no file and leaves behind a logger without a file;
    from then on every audit step prints its line and never touches the
    file. *)
Theorem logger_left_without_file (message user_name : string) (s : State) :
  PyStr.startswith "exchange" message = true ->
  file_logger s = None ->
  log_file s = None ->
  w_fs W IsFile = None ->
  Server.message_handle W message user_name s =
    (Raise TypeError, set_file_logger (Some LoggerNoFile) s)
  /\ forall user_name' message' s',
       file_logger s' = Some LoggerNoFile ->
       audit W user_name' message' s' =
       (Ok tt,
        add_trace [EvPrint (log_line W s' (user_name' ++ ": " ++ message'))]
                  (tick_log_calls s')).
Proof.
  intros Hstart Hlogger Hfile Hisfile. split.
  - rewrite (message_handle_eq _ _ _ Hstart).
    unfold audit, Server.logger, AsyncLog.set_file, AsyncLog.fs, bind,
      get_state, modify, raise, ret.
    rewrite Hlogger. cbn. rewrite Hisfile. cbn. rewrite Hfile.
    reflexivity.
  - intros user_name' message' s' Hnofile.
    unfold audit, Server.logger, AsyncLog.log, bind, get_state, modify, ret,
      emit.
    rewrite Hnofile. reflexivity.
Qed.

(** X19. The audit step comes first.  If it raises, the command raises
    the same and nothing more is done; in any case all that the rest
    of the command adds to the trace is requests, at most ten. *)
Theorem message_handle_audit_first (message user_name : string) (s : State) :
  PyStr.startswith "exchange" message = true ->
  (forall e,
     fst (audit W user_name message s) = Raise e ->
     Server.message_handle W message user_name s =
     (Raise e, snd (audit W user_name message s)))
  /\ exists urls,
       trace (snd (Server.message_handle W message user_name s)) =
         (trace (snd (audit W user_name message s)) ++ map EvGet urls)%list
       /\ (length urls <= 10)%nat.
Proof.
  intros Hstart. split.
  - intros e Haudit. rewrite (message_handle_eq _ _ _ Hstart).
    destruct (audit W user_name message s) as [[[]|e'] s1];
      [discriminate|]. cbn in Haudit. by injection Haudit as ->.
  - destruct (message_handle_state message user_name s Hstart)
      as [-> | (kw & _ & ->)].
    + exists []. split; [by rewrite app_nil_r | cbn; lia].
    + by destruct (exchange_rates_kwargs_keeps kw
                     (snd (audit W user_name message s)))
        as (_ & _ & Hurls).
Qed.

(** X20. An accepted command with a currency token works on a list of
    its own: that list gets the base currencies, the shared default list
    and the list of base currencies are left as they were.  An accepted
    command without a currency token makes the shared default list
    longer by the base currencies. *)
Theorem message_handle_lists (message user_name : string) (s : State)
    (kw : Exchange.kwargs) :
  PyStr.startswith "exchange" message = true ->
  Exchange.arg_parsing W (PyStr.split " " message) = Ok (kw, "") ->
  fst (audit W user_name message s) = Ok tt ->
  (2 <= next_loc s)%nat ->
  let s' := snd (Server.message_handle W message user_name s) in
  heap s' Exchange.base_currency_loc = heap s Exchange.base_currency_loc
  /\ match Exchange.kw_currency kw with
     | Some cs =>
         heap s' Exchange.default_currency_loc =
           heap s Exchange.default_currency_loc
         /\ heap s' (next_loc s) =
            (cs ++ heap s Exchange.base_currency_loc)%list
         /\ next_loc s' = S (next_loc s)
     | None =>
         heap s' Exchange.default_currency_loc =
           (heap s Exchange.default_currency_loc
            ++ heap s Exchange.base_currency_loc)%list
         /\ next_loc s' = next_loc s
     end.
Proof.
  intros Hstart Hparse Haudit Hnext s'. subst s'.
  rewrite (message_handle_accepted_state _ _ _ _ Hstart Haudit Hparse).
  destruct (audit_keeps user_name message s) as (_ & Hheap & Hloc).
  rewrite exchange_rates_kwargs_eq.
  destruct (Exchange.kw_currency kw) as [cs|].
  - destruct (exchange_rates_state (default 1%Z (Exchange.kw_days kw))
                (Some (next_loc (snd (audit W user_name message s))))
                (bump_loc (set_heap
                             (next_loc (snd (audit W user_name message s)))
                             cs (snd (audit W user_name message s)))))
      as (urls & -> & _).
    rewrite Hloc. cbn. rewrite Hheap, Nat.eqb_refl.
    destruct (next_loc s) as [|[|n]]; [lia | lia |]. cbn.
    by rewrite Hloc.
  - destruct (exchange_rates_state (default 1%Z (Exchange.kw_days kw))
                None (snd (audit W user_name message s)))
      as (urls & -> & _).
    cbn. by rewrite Hheap, Hloc.
Qed.

End Frames.

Lemma logger_left_without_file_witness :
  log_file initial_state = None
  /\ Server.message_handle Demo.good "exchange" "Peer 0" initial_state =
     (Raise TypeError, set_file_logger (Some LoggerNoFile) initial_state)
  /\ trace
       (snd (audit Demo.good "Peer 0" "exchange 2"
               (snd (Server.message_handle Demo.good "exchange" "Peer 0"
                       initial_state)))) =
     [EvPrint (log_line Demo.good initial_state "Peer 0: exchange 2")].
Proof.
  destruct (logger_left_without_file Demo.good "exchange" "Peer 0"
              initial_state eq_refl eq_refl eq_refl eq_refl)
    as [Hfirst Hlater].
  split; [reflexivity|]. split; [exact Hfirst|].
  rewrite Hfirst. cbn [fst snd].
  by rewrite (Hlater "Peer 0" "exchange 2"
                (set_file_logger (Some LoggerNoFile) initial_state) eq_refl).
Defined.

Lemma message_handle_audit_first_witness :
  fst (audit Demo.good "Peer 0" "exchange 2" Demo.logged) = Ok tt
  /\ exists urls,
       trace (snd (Server.message_handle Demo.good "exchange 2" "Peer 0"
                     Demo.logged)) =
         (trace (snd (audit Demo.good "Peer 0" "exchange 2" Demo.logged))
          ++ map EvGet urls)%list
       /\ (length urls <= 10)%nat.
Proof.
  split; [reflexivity|].
  exact (proj2 (message_handle_audit_first Demo.good "exchange 2" "Peer 0"
                  Demo.logged eq_refl)).
Defined.

Lemma message_handle_lists_witness :
  let s' := snd (Server.message_handle Demo.good "exchange 1 pln" "Peer 0"
                   Demo.logged) in
  log_file Demo.logged = Some []
  /\ fst (audit Demo.good "Peer 0" "exchange 1 pln" Demo.logged) = Ok tt
  /\ heap s' Exchange.default_currency_loc = []
  /\ heap s' 2%nat = ["PLN"; "EUR"; "USD"]
  /\ heap (snd (Server.message_handle Demo.good "exchange 1" "Peer 0"
                  Demo.logged)) Exchange.default_currency_loc =
     ["EUR"; "USD"].
Proof.
  cbv zeta.
  destruct (message_handle_lists Demo.good "exchange 1 pln" "Peer 0"
              Demo.logged (Exchange.mkKwargs (Some 1%Z) (Some ["PLN"]))
              eq_refl eq_refl eq_refl ltac:(cbn; lia))
    as (_ & Hdefault & Hown & _).
  destruct (message_handle_lists Demo.good "exchange 1" "Peer 0"
              Demo.logged (Exchange.mkKwargs (Some 1%Z) None)
              eq_refl eq_refl eq_refl ltac:(cbn; lia))
    as (_ & Hgrown & _).
  split; [reflexivity|]. split; [reflexivity|].
  split; [exact Hdefault|]. split; [exact Hown | exact Hgrown].
Defined.

(** ** The registry and the broadcast, further *)

Section Registry.

Variable W : World.

Lemma same_peers_refl (s : State) : same_peers s s.
Proof. by repeat split. Qed.

Lemma same_peers_trans (s1 s2 s3 : State) :
  same_peers s1 s2 -> same_peers s2 s3 -> same_peers s1 s3.
Proof.
  unfold same_peers. intros (-> & -> & ->) (-> & -> & ->). by repeat split.
Qed.

Lemma same_peers_add_trace (es : list event) (s : State) :
  same_peers s (add_trace es s).
Proof. by repeat split. Qed.

Lemma difference_union_singleton (c : conn) (X : gset conn) :
  ({[c]} ∪ X) ∖ {[c]} = X ∖ {[c]}.
Proof.
  apply set_eq. intros x.
  rewrite !elem_of_difference, elem_of_union, elem_of_singleton. tauto.
Qed.

Lemma elem_of_union_singleton (c : conn) (X : gset conn) : c ∈ {[c]} ∪ X.
Proof. by apply elem_of_union_l, elem_of_singleton. Qed.

Lemma not_elem_of_difference_singleton (c : conn) (X : gset conn) :
  c ∉ X ∖ {[c]}.
Proof. rewrite elem_of_difference, elem_of_singleton. tauto. Qed.

Lemma sends_app (t u : list event) :
  sends (t ++ u) = (sends t ++ sends u)%list.
Proof. apply omap_app. Qed.

Lemma sends_delivered (message : string) (cs : list conn) :
  sends (delivered message cs) = map (fun c => (c, message)) cs.
Proof.
  induction cs as [|c cs IH]; [reflexivity|].
  cbn. unfold sends, delivered in IH. by rewrite IH.
Qed.

(** A run of sends stops at the first one that fails: the connections
    before it have the message, the failing one and those after do
    not, and nothing but deliveries is added to the state. *)
Lemma for_each_send_state (message : string) (l : list conn) (s : State) :
  exists cs rest,
    l = (cs ++ rest)%list
    /\ snd (for_each l (Server.send W message) s) =
       add_trace (delivered message cs) s
    /\ (fst (for_each l (Server.send W message) s) = Ok tt -> rest = [])
    /\ (forall e,
          fst (for_each l (Server.send W message) s) = Raise e ->
          exists c rest', rest = c :: rest'
                          /\ w_send W c message = Some e).
Proof.
  revert s. induction l as [|c l IH]; intros s.
  - exists [], []. cbn. rewrite add_trace_nil. by repeat split.
  - cbn. unfold bind, Server.send at 1 3 5.
    destruct (w_send W c message) as [e|] eqn:Hsend; cbn.
    + exists [], (c :: l). rewrite add_trace_nil.
      repeat split; [discriminate|]. intros e' [= <-]. by exists c, l.
    + destruct (IH (add_trace [EvSend c message] s))
        as (cs & rest & -> & Hsnd & Hok & Hraise).
      exists (c :: cs), rest. rewrite Hsnd, add_trace_add_trace.
      by repeat split.
Qed.

Lemma send_to_clients_eq (message : string) (s : State) :
  Server.send_to_clients W message s =
  if bool_decide (clients s = ∅) then (Ok tt, s)
  else for_each (w_set_order W (clients s)) (Server.send W message) s.
Proof.
  unfold Server.send_to_clients, bind, get_state, ret.
  by destruct (bool_decide (clients s = ∅)).
Qed.

Lemma send_to_clients_same_peers (message : string) (s : State) :
  same_peers s (snd (Server.send_to_clients W message s)).
Proof.
  rewrite send_to_clients_eq. destruct (bool_decide (clients s = ∅)).
  - apply same_peers_refl.
  - destruct (for_each_send_state message (w_set_order W (clients s)) s)
      as (cs & rest & _ & -> & _). apply same_peers_add_trace.
Qed.

Lemma message_handle_same_peers (message user_name : string) (s : State) :
  same_peers s (snd (Server.message_handle W message user_name s)).
Proof.
  destruct (PyStr.startswith "exchange" message) eqn:Hstart.
  - destruct (audit_keeps W user_name message s) as [Haudit _].
    destruct (message_handle_state W message user_name s Hstart)
      as [-> | (kw & _ & ->)]; [exact Haudit|].
    eapply same_peers_trans; [exact Haudit|].
    apply exchange_rates_kwargs_keeps.
  - unfold Server.message_handle. rewrite Hstart. apply same_peers_refl.
Qed.

Lemma for_each_same_peers {A} (xs : list A) (body : A -> M unit) (s : State) :
  (forall x s0, same_peers s0 (snd (body x s0))) ->
  same_peers s (snd (for_each xs body s)).
Proof.
  intros Hbody. revert s. induction xs as [|x xs IH]; intros s.
  - apply same_peers_refl.
  - cbn. unfold bind. pose proof (Hbody x s) as Hx.
    destruct (body x s) as [[[]|e] s1]; cbn in Hx; [|exact Hx].
    eapply same_peers_trans; [exact Hx | apply IH].
Qed.

Lemma distrubute_same_peers (ws : conn) (frames : list string)
    (closing : option exn) (s : State) :
  same_peers s (snd (Server.distrubute W ws frames closing s)).
Proof.
  unfold Server.distrubute, bind.
  assert (Hloop : same_peers s
            (snd (for_each frames
                    (fun message =>
                       await s0 := get_state in
                       match ws_name s0 !! ws with
                       | Some name =>
                           await result :=
                             Server.message_handle W message name in
                           Server.send_to_clients W (name ++ ": " ++ result)
                       | None => raise AttributeError
                       end) s))).
  { apply for_each_same_peers. intros message s0.
    unfold bind, get_state. cbn.
    destruct (ws_name s0 !! ws) as [name|]; [|apply same_peers_refl].
    pose proof (message_handle_same_peers message name s0) as Hm.
    destruct (Server.message_handle W message name s0) as [[result|e] s1];
      cbn in Hm; [|exact Hm].
    eapply same_peers_trans; [exact Hm | apply send_to_clients_same_peers]. }
  destruct (for_each frames _ s) as [[[]|e] s1]; cbn in *; [|exact Hloop].
  by destruct closing.
Qed.

(** X21. A broadcast adds nothing to the state but deliveries of its
    message: to the connections of a first part of the iteration order,
    in that order.  If it returns, that part is the whole order; if it
    raises, it raises what the send to the next connection raised. *)
Theorem send_to_clients_delivers_prefix (message : string) (s : State) :
  clients s <> ∅ ->
  exists cs rest,
    w_set_order W (clients s) = (cs ++ rest)%list
    /\ snd (Server.send_to_clients W message s) =
       add_trace (delivered message cs) s
    /\ (fst (Server.send_to_clients W message s) = Ok tt -> rest = [])
    /\ (forall e,
          fst (Server.send_to_clients W message s) = Raise e ->
          exists c rest', rest = c :: rest'
                          /\ w_send W c message = Some e).
Proof.
  intros Hnonempty. rewrite send_to_clients_eq.
  rewrite bool_decide_eq_false_2 by exact Hnonempty.
  apply for_each_send_state.
Qed.

(** X22. Registering a connection and then unregistering it succeeds;
    the connection is then not registered, every other connection is
    registered as before, and the name drawn for it stays on it. *)
Theorem register_then_unregister (ws : conn) (s : State) :
  let r := (await_ Server.register W ws in Server.unregister W ws) s in
  fst r = Ok tt
  /\ clients (snd r) = clients s ∖ {[ws]}
  /\ ws_name (snd r) !! ws = Some (w_full_name W (names_drawn s))
  /\ trace (snd r) =
     (trace s ++ [EvInfo (w_remote_address W ws ++ " connects");
                  EvInfo (w_remote_address W ws ++ " disconnects")])%list.
Proof.
  unfold Server.register, Server.unregister, bind, get_state, modify, emit,
    raise. cbn.
  rewrite bool_decide_eq_true_2 by apply elem_of_union_singleton. cbn.
  repeat split.
  - apply difference_union_singleton.
  - apply lookup_insert_eq.
  - by rewrite <- app_assoc.
Qed.

(** X23. Unregistering a registered connection removes it and nothing
    else; unregistering it once more raises KeyError. *)
Theorem unregister_twice (c : conn) (s : State) :
  c ∈ clients s ->
  Server.unregister W c s =
    (Ok tt,
     add_trace [EvInfo (w_remote_address W c ++ " disconnects")]
               (set_clients (fun cs => cs ∖ {[c]}) s))
  /\ fst (Server.unregister W c (snd (Server.unregister W c s))) =
     Raise KeyError.
Proof.
  intros Hin.
  assert (Hfirst : Server.unregister W c s =
            (Ok tt,
             add_trace [EvInfo (w_remote_address W c ++ " disconnects")]
                       (set_clients (fun cs => cs ∖ {[c]}) s))).
  { unfold Server.unregister, bind, get_state, modify, emit.
    by rewrite bool_decide_eq_true_2. }
  split; [exact Hfirst|]. rewrite Hfirst. cbn [snd].
  unfold Server.unregister, bind, get_state, raise.
  rewrite bool_decide_eq_false_2; [reflexivity|]. cbn.
  apply not_elem_of_difference_singleton.
Qed.

(** X24. However a connection's handler ends (the peer closes, a frame
    cannot be handled, a fetch or a send raises), the connection is not
    registered afterwards, and the other connections are registered as
    before. *)
Theorem ws_handler_unregisters (ws : conn) (frames : list string)
    (closing : option exn) (s : State) :
  clients (snd (Server.ws_handler W ws frames closing s)) =
  clients s ∖ {[ws]}.
Proof.
  unfold Server.ws_handler, bind, finally, Server.except_closed_ok.
  unfold Server.register at 1. unfold bind, get_state, modify, emit. cbn.
  set (s1 := add_trace _ _).
  destruct (distrubute_same_peers ws frames closing s1) as (Hclients & _).
  destruct (Server.distrubute W ws frames closing s1) as [r s2].
  cbn in Hclients.
  assert (Hin : ws ∈ clients s2)
    by (rewrite Hclients; apply elem_of_union_singleton).
  destruct r as [[]|[]]; rewrite (bool_decide_eq_true_2 _ Hin); cbn;
    rewrite Hclients; apply difference_union_singleton.
Qed.

Lemma distrubute_eq (ws : conn) (frames : list string)
    (closing : option exn) :
  Server.distrubute W ws frames closing =
  (await_ for_each frames (relay W ws) in
   match closing with
   | Some e => raise e
   | None => ret tt
   end).
Proof. reflexivity. Qed.

(** A frame that is not a command is sent as it is, under the name of
    the sender, to the registered connections. *)
Lemma relay_chat (ws : conn) (name message : string) (s : State) :
  ws_name s !! ws = Some name ->
  PyStr.startswith "exchange" message = false ->
  clients s <> ∅ ->
  relay W ws message s =
  for_each (w_set_order W (clients s))
           (Server.send W (name ++ ": " ++ message)) s.
Proof.
  intros Hname Hstart Hnonempty.
  unfold relay, bind, get_state. rewrite Hname.
  unfold Server.message_handle. rewrite Hstart. unfold ret.
  rewrite send_to_clients_eq. by rewrite bool_decide_eq_false_2.
Qed.

(** X25. Frames that are not commands are relayed in the order they
    arrive: while the sends succeed, each one is delivered as
    "<name>: <text>" to every registered connection, in the order the
    set is iterated in, before the next frame is looked at; the loop
    returns when the peer closes.  So every registered connection gets
    every frame, and nothing is delivered but these frames to registered
    connections. *)
Theorem distrubute_relays_chat (ws : conn) (name : string)
    (frames : list string) (s : State) :
  ws_name s !! ws = Some name ->
  clients s <> ∅ ->
  w_set_order W (clients s) ≡ₚ elements (clients s) ->
  (forall m, m ∈ frames -> PyStr.startswith "exchange" m = false) ->
  (forall c m, c ∈ clients s -> w_send W c (name ++ ": " ++ m) = None) ->
  let relayed :=
    concat (map (fun m => delivered (name ++ ": " ++ m)
                                    (w_set_order W (clients s)))
                frames) in
  Server.distrubute W ws frames None s = (Ok tt, add_trace relayed s)
  /\ (forall c m,
        c ∈ clients s -> m ∈ frames ->
        EvSend c (name ++ ": " ++ m) ∈ relayed)
  /\ (forall ev,
        ev ∈ relayed ->
        exists c m, c ∈ clients s /\ m ∈ frames
                    /\ ev = EvSend c (name ++ ": " ++ m)).
Proof.
  intros Hname Hnonempty Hperm Hchat Hsend relayed. subst relayed.
  split; [|split].
  - rewrite distrubute_eq. unfold bind.
    assert (Hloop : forall s0,
              ws_name s0 = ws_name s -> clients s0 = clients s ->
              for_each frames (relay W ws) s0 =
              (Ok tt,
               add_trace
                 (concat (map (fun m => delivered (name ++ ": " ++ m)
                                                  (w_set_order W (clients s)))
                              frames)) s0)).
    { induction frames as [|m frames IH]; intros s0 Hn Hc.
      - cbn. by rewrite add_trace_nil.
      - cbn [for_each map concat]. unfold bind.
        rewrite (relay_chat ws name m s0);
          [|by rewrite Hn
           |apply Hchat, list_elem_of_here
           |by rewrite Hc].
        rewrite Hc, for_each_send_ok
          by (intros c Hc'; by apply Hsend, (set_order_elem W _ c Hperm)).
        rewrite IH; [by rewrite add_trace_add_trace| |exact Hn|exact Hc].
        intros m' Hm'. by apply Hchat, list_elem_of_further. }
    by rewrite (Hloop s eq_refl eq_refl).
  - intros c m Hc Hm. apply list_elem_of_In, in_concat.
    exists (delivered (name ++ ": " ++ m) (w_set_order W (clients s))).
    split.
    + apply in_map_iff. exists m. split; [reflexivity|].
      by apply list_elem_of_In.
    + apply list_elem_of_In, delivered_elem.
      by apply (set_order_elem W _ c Hperm).
  - intros ev Hev. apply list_elem_of_In, in_concat in Hev as (evs & Hevs & Hin).
    apply in_map_iff in Hevs as (m & <- & Hm).
    unfold delivered in Hin. apply in_map_iff in Hin as (c & <- & Hc).
    exists c, m. split; [|split; [|reflexivity]].
    + by apply (set_order_elem W _ c Hperm), list_elem_of_In.
    + by apply list_elem_of_In.
Qed.

(** X26. A send that fails with ConnectionClosedOK, raised because some
    other peer has closed, is taken for the closure of the sender: the
    handler of the sender returns as if its own peer had closed, the
    connections after the closed one are not sent the frame, the frames
    that follow are never handled, and the sender is unregistered. *)
Theorem ws_handler_ends_on_closed_peer (ws : conn) (message : string)
    (later : list string) (closing : option exn) (s : State)
    (before after : list conn) (failing : conn) :
  let name := w_full_name W (names_drawn s) in
  let text := name ++ ": " ++ message in
  PyStr.startswith "exchange" message = false ->
  w_set_order W ({[ws]} ∪ clients s) = (before ++ failing :: after)%list ->
  (forall c, c ∈ before -> w_send W c text = None) ->
  w_send W failing text = Some ConnectionClosedOK ->
  fst (Server.ws_handler W ws (message :: later) closing s) = Ok tt
  /\ sends (trace (snd (Server.ws_handler W ws (message :: later) closing s)))
     = (sends (trace s) ++ map (fun c => (c, text)) before)%list
  /\ clients (snd (Server.ws_handler W ws (message :: later) closing s)) =
     clients s ∖ {[ws]}.
Proof.
  intros name text Hstart Horder Hbefore Hfail. subst text.
  pose (s1 := add_trace [EvInfo (w_remote_address W ws ++ " connects")]
                (set_clients (fun cs => {[ws]} ∪ cs) (set_name ws name s))).
  assert (Hreg : Server.register W ws s = (Ok tt, s1)) by reflexivity.
  unfold Server.ws_handler, bind, finally, Server.except_closed_ok.
  rewrite Hreg.
  assert (Hnonempty : clients s1 <> ∅).
  { intros Hempty.
    pose proof (elem_of_union_singleton ws (clients s)) as Hin.
    change (clients s1) with ({[ws]} ∪ clients s) in Hempty.
    rewrite Hempty in Hin. by apply not_elem_of_empty in Hin. }
  assert (Hdist : Server.distrubute W ws (message :: later) closing s1 =
                  (Raise ConnectionClosedOK,
                   add_trace (delivered (name ++ ": " ++ message) before)
                             s1)).
  { rewrite distrubute_eq. unfold bind. cbn [for_each]. unfold bind.
    rewrite (relay_chat ws name message s1);
      [|apply lookup_insert_eq | exact Hstart | exact Hnonempty].
    change (clients s1) with ({[ws]} ∪ clients s). rewrite Horder.
    by rewrite (for_each_send_fail W (name ++ ": " ++ message) before after
                  failing ConnectionClosedOK s1 Hbefore Hfail). }
  rewrite Hdist.
  unfold Server.unregister, bind, get_state, modify, emit.
  rewrite bool_decide_eq_true_2 by apply elem_of_union_singleton.
  cbn. split; [reflexivity|]. split.
  - rewrite !sends_app, sends_delivered. cbn. by rewrite !app_nil_r.
  - apply difference_union_singleton.
Qed.

End Registry.

Lemma distrubute_relays_chat_witness :
  ws_name (set_name 1%nat "Peer 0" Demo.two_clients) !! 1%nat = Some "Peer 0"
  /\ w_set_order Demo2.all_sent (clients Demo.two_clients)
     ≡ₚ elements (clients Demo.two_clients)
  /\ sends (trace (snd (Server.distrubute Demo2.all_sent 1%nat ["hi"; "bye"]
                          None
                          (set_name 1%nat "Peer 0" Demo.two_clients)))) =
     [ (2%nat, "Peer 0: hi"); (1%nat, "Peer 0: hi");
       (2%nat, "Peer 0: bye"); (1%nat, "Peer 0: bye") ].
Proof.
  assert (Hperm : w_set_order Demo2.all_sent (clients Demo.two_clients)
                  ≡ₚ elements (clients Demo.two_clients))
    by (vm_compute; (reflexivity || apply perm_swap)).
  split; [reflexivity|]. split; [exact Hperm|].
  destruct (distrubute_relays_chat Demo2.all_sent 1%nat "Peer 0"
              ["hi"; "bye"] (set_name 1%nat "Peer 0" Demo.two_clients)
              eq_refl ltac:(by vm_compute) Hperm) as (Hrun & _ & _).
  - intros m Hm. apply list_elem_of_In in Hm.
    destruct Hm as [<- | [<- | []]]; reflexivity.
  - reflexivity.
  - by rewrite Hrun.
Defined.

Lemma ws_handler_ends_on_closed_peer_witness :
  fst (Server.ws_handler Demo2.peer_closed 1%nat ["hi"; "exchange 2"] None
         (set_clients (fun _ => {[2%nat]}) initial_state)) = Ok tt
  /\ sends (trace (snd (Server.ws_handler Demo2.peer_closed 1%nat
                          ["hi"; "exchange 2"] None
                          (set_clients (fun _ => {[2%nat]}) initial_state))))
     = [].
Proof.
  destruct (ws_handler_ends_on_closed_peer Demo2.peer_closed 1%nat "hi"
              ["exchange 2"] None
              (set_clients (fun _ => {[2%nat]}) initial_state)
              [] [1%nat] 2%nat eq_refl ltac:(by vm_compute)
              ltac:(by intros c ?%not_elem_of_nil) eq_refl)
    as (Hok & Hsends & _).
  split; [exact Hok | exact Hsends].
Defined.

Lemma send_to_clients_delivers_prefix_witness :
  clients Demo.two_clients <> ∅
  /\ exists cs rest,
       w_set_order Demo.good (clients Demo.two_clients) = (cs ++ rest)%list
       /\ snd (Server.send_to_clients Demo.good "hello" Demo.two_clients) =
          add_trace (delivered "hello" cs) Demo.two_clients.
Proof.
  assert (Htwo : clients Demo.two_clients <> ∅) by (by vm_compute).
  split; [exact Htwo|].
  destruct (send_to_clients_delivers_prefix Demo.good "hello"
              Demo.two_clients Htwo) as (cs & rest & Horder & Hsnd & _).
  by exists cs, rest.
Defined.

Lemma unregister_twice_witness :
  1%nat ∈ clients Demo.two_clients
  /\ fst (Server.unregister Demo.good 1%nat Demo.two_clients) = Ok tt
  /\ fst (Server.unregister Demo.good 1%nat
            (snd (Server.unregister Demo.good 1%nat Demo.two_clients))) =
     Raise KeyError.
Proof.
  assert (Hin : 1%nat ∈ clients Demo.two_clients)
    by (apply elem_of_union_l, elem_of_singleton; reflexivity).
  destruct (unregister_twice Demo.good 1%nat Demo.two_clients Hin)
    as [Hfirst Hsecond].
  split; [exact Hin|]. split; [by rewrite Hfirst | exact Hsecond].
Defined.
